(** * doco: error envelope, response adapter, blob delivery, proxy configuration

    A shallow embedding of [doco.go] (package [doco]) and of the actor
    registration in [main].  Go strings are byte strings and are modelled by
    [string]; [map[string]string] and [http.Header] are finite maps; a Go
    [(T, error)] result is a sum; effects on the process (allocation of error
    values, standard output, the clock, the database handle installed by
    [boil.SetDB]) are threaded through a small state monad. *)

From Stdlib Require Import Ascii String.
From stdpp Require Import gmap strings list pretty.

Local Open Scope string_scope.

(** ** Characters that cannot be written inside a literal *)

Definition dq : string := String (Ascii.ascii_of_nat 34) EmptyString.
Definition nl : string := String (Ascii.ascii_of_nat 10) EmptyString.
Definition tab : string := String (Ascii.ascii_of_nat 9) EmptyString.

(** ** Go error values

    An [error] is an interface value holding a pointer; two errors are equal
    ([==], [errors.Is]) when they are the same pointer.  [errors.New] builds a
    [errors.errorString] pointer, [fmt.Errorf] with [%w] a [fmt.wrapError]
    pointer (used by the migration helpers of the package); [typedError]
    stands for an error of any other dynamic type, named by [typ].  The
    address is the pointer. *)

Definition addr := positive.

Inductive error : Type :=
| errorString (p : addr) (s : string)
| wrapError (p : addr) (msg : string) (err : error)
| typedError (p : addr) (typ : string) (msg : string).

(** The [Error() string] method. *)
Definition Error (e : error) : string :=
  match e with
  | errorString _ s => s
  | wrapError _ msg _ => msg
  | typedError _ _ msg => msg
  end.

(** ** The process state seen by the handlers *)

Definition Time := Z.

(** The fields of [db.Blob] that the handler reads. *)
Record Blob := {
  FileName : string;
  MimeType : string;
  File : string;
}.

(** Modelled from the spec: the Content Store Access of package [doco/db]
    (generated code, not among the sources).  The spec gives it as the lookup
    of a binary object by a unique filename key that returns the blob or an
    error; [db.Blobs(db.BlobWhere.FileName.EQ(k)).OneG()] is that lookup on
    the handle installed by [boil.SetDB]. *)
Definition Store := string -> Blob + error.

(** [caddy.AppName], [caddy.AppVersion] and [caddy.Quiet], package variables
    of the proxy library. *)
Record CaddyApp := {
  AppName : string;
  AppVersion : string;
  Quiet : bool;
}.

Record World := {
  db : Store;
  clock : Time;
  nextAddr : addr;
  stdout : list string;
  logged : list (string * list (string * string));
  caddyApp : CaddyApp;
}.

Definition M (A : Type) : Type := World -> A * World.

#[global] Instance M_ret : MRet M := fun A (a : A) σ => (a, σ).
#[global] Instance M_bind : MBind M :=
  fun A B (k : A -> M B) (m : M A) σ => let '(a, σ') := m σ in k a σ'.

Definition allocated (σ : World) : World :=
  {| db := db σ; clock := clock σ; nextAddr := Pos.succ (nextAddr σ);
     stdout := stdout σ; logged := logged σ; caddyApp := caddyApp σ |}.

Definition printed (line : string) (σ : World) : World :=
  {| db := db σ; clock := clock σ; nextAddr := nextAddr σ;
     stdout := (stdout σ ++ [line])%list; logged := logged σ;
     caddyApp := caddyApp σ |}.

Definition logging (entry : string * list (string * string)) (σ : World)
  : World :=
  {| db := db σ; clock := clock σ; nextAddr := nextAddr σ;
     stdout := stdout σ; logged := (logged σ ++ [entry])%list;
     caddyApp := caddyApp σ |}.

Definition withCaddyApp (app : CaddyApp) (σ : World) : World :=
  {| db := db σ; clock := clock σ; nextAddr := nextAddr σ;
     stdout := stdout σ; logged := logged σ; caddyApp := app |}.

(** [errors.New(text)]: a fresh [errorString] pointer. *)
Definition errors_New (text : string) : M error :=
  fun σ => (errorString (nextAddr σ) text, allocated σ).

(** [fmt.Println(err)]: one line on standard output. *)
Definition fmt_Println (line : string) : M unit :=
  fun σ => (tt, printed line σ).

(** [time.Now()]. *)
Definition time_Now : M Time := fun σ => (clock σ, σ).

(** [db.Blobs(db.BlobWhere.FileName.EQ(key)).OneG()]. *)
Definition Blobs_FileName_EQ_OneG (key : string) : M (Blob + error) :=
  fun σ => (db σ key, σ).

(** ** ErrorResponse *)

Record ErrorResponse := {
  Err_ : string;      (* field Err, json:"err" *)
  Message : string;   (* field Message, json:"message" *)
}.

(** [Err(err, message...)]: the variadic [message] is a list. *)
Definition Err (err : error) (message : list string) : ErrorResponse :=
  let e := {| Err_ := Error err; Message := Error err |} in
  match message with
  | m0 :: _ => {| Err_ := Err_ e; Message := m0 |}
  | [] => e
  end.

(** Method [Unwrap] of [ErrorResponse]. *)
Definition Unwrap (e : ErrorResponse) : M error := errors_New (Err_ e).

(** Method [Error] of [ErrorResponse]. *)
Definition ErrorResponse_Error (e : ErrorResponse) : string := Message e.

(** ** HTTP response writer and request

    The writer records what a handler does to it: the header map
    ([Header().Add] appends, [Header().Set] replaces), the status given to
    the first [WriteHeader] and the bytes written.  A [Write] before any
    [WriteHeader] sends status 200 first, a second [WriteHeader] is ignored;
    both as in [net/http].  [WriteHeader] and [http_Error] below give the
    effect of a call that [net/http] accepts, which is every call at the
    fixed codes 200, 206 and 400; [WriteHeader_checked] and
    [http_Error_checked] are the calls at a code the caller was handed, with
    the check on the code that [net/http] makes and its panic.

    The header map is the one [Header()] returns: a change made to it after
    the status was sent is recorded in it and is not part of the response
    that was sent.  The writer appends every byte written; the writer of
    the [net/http] server holds the body back at the statuses
    [bodyAllowedForStatus] refuses (1xx, 204, 304), and what is stated
    below about a body written at a code the caller was handed is stated
    for the other statuses. *)

Record ResponseWriter := {
  header : gmap string (list string);
  status : option Z;
  body : string;
}.

Definition NewResponseWriter : ResponseWriter :=
  {| header := ∅; status := None; body := EmptyString |}.

Definition Header_Add (w : ResponseWriter) (k v : string) : ResponseWriter :=
  {| header := <[k := (default [] (header w !! k) ++ [v])%list]> (header w);
     status := status w; body := body w |}.

Definition Header_Set (w : ResponseWriter) (k v : string) : ResponseWriter :=
  {| header := <[k := [v]]> (header w); status := status w; body := body w |}.

(** [Header().Get(k)]: the first value, or the empty string. *)
Definition Header_Get (w : ResponseWriter) (k : string) : string :=
  match header w !! k with
  | Some (v :: _) => v
  | _ => EmptyString
  end.

Definition StatusOK : Z := 200.
Definition StatusBadRequest : Z := 400.

Definition WriteHeader (w : ResponseWriter) (code : Z) : ResponseWriter :=
  match status w with
  | Some _ => w
  | None => {| header := header w; status := Some code; body := body w |}
  end.

Definition Write (w : ResponseWriter) (b : string) : ResponseWriter :=
  let w := WriteHeader w StatusOK in
  {| header := header w; status := status w; body := body w +:+ b |}.

(** [http.Error(w, error, code)]; [fmt.Fprintln] adds the newline. *)
Definition http_Error (w : ResponseWriter) (error : string) (code : Z)
  : ResponseWriter :=
  let w := Header_Set w "Content-Type" "text/plain; charset=utf-8" in
  let w := Header_Set w "X-Content-Type-Options" "nosniff" in
  let w := WriteHeader w code in
  Write w (error +:+ nl).

(** [checkWriteHeaderCode]: [net/http] takes the three-digit codes and
    panics on any other. *)
Definition checkWriteHeaderCode (code : Z) : bool :=
  (100 <=? code)%Z && (code <=? 999)%Z.

(** How a call on the writer ends: it returns, or it panics and leaves the
    writer as it was at the panic. *)
Inductive handled : Type :=
| Answered (w : ResponseWriter)
| PanicsWith (w : ResponseWriter) (msg : string).

(** [w.WriteHeader(code)] at any code: ignored when a status was sent
    before; else the code is checked, and sent if it passes. *)
Definition WriteHeader_checked (w : ResponseWriter) (code : Z) : handled :=
  match status w with
  | Some _ => Answered w
  | None =>
      if checkWriteHeaderCode code then Answered (WriteHeader w code)
      else PanicsWith w ("invalid WriteHeader code " +:+ pretty code)
  end.

(** [http.Error(w, error, code)] at any code: the two headers are set
    before [WriteHeader] may panic, the message is written after. *)
Definition http_Error_checked (w : ResponseWriter) (error : string)
  (code : Z) : handled :=
  let w := Header_Set w "Content-Type" "text/plain; charset=utf-8" in
  let w := Header_Set w "X-Content-Type-Options" "nosniff" in
  match WriteHeader_checked w code with
  | PanicsWith w msg => PanicsWith w msg
  | Answered w => Answered (Write w (error +:+ nl))
  end.

(** [bodyAllowedForStatus] of [net/http]. *)
Definition bodyAllowedForStatus (status : Z) : bool :=
  if (100 <=? status)%Z && (status <=? 199)%Z then false
  else if (status =? 204)%Z then false
  else if (status =? 304)%Z then false
  else true.

(** [http.Error(w, error, code)] ends in a response with a body: the status
    in effect, the one sent before or else [code], which then has to pass
    the check, is one that allows a body. *)
Definition answersWithBody (w : ResponseWriter) (code : Z) : bool :=
  match status w with
  | Some sent => bodyAllowedForStatus sent
  | None => checkWriteHeaderCode code && bodyAllowedForStatus code
  end.

Record Request := {
  Method : string;
  ReqHeader : gmap string (list string);
  URLParams : gmap string string;
}.

(** [chi.URLParam(r, key)]: the empty string when the route has no such
    parameter. *)
Definition chi_URLParam (r : Request) (key : string) : string :=
  default EmptyString (URLParams r !! key).

(** ** JSON values

    What [encoding/json] writes for the values the package hands to it: a
    struct becomes an object whose members are the tagged fields in
    declaration order. *)

#[local] Set Warnings "-register-all".

Inductive json : Type :=
| JNull
| JBool (b : bool)
| JNumber (n : Z)
| JString (s : string)
| JArray (items : list json)
| JObject (members : list (string * json)).

(** A handler's [interface{}] result: a value [encoding/json] can encode, or
    one it rejects (a channel, a function, ...) with an
    [UnsupportedTypeError]. *)
Inductive value : Type :=
| Encodable (j : json)
| Unsupported (typ : string).

Section Handlers.

(** What the model takes from the Go standard library as it is:
    [encoding/json]'s encoding of a string (quoting and escaping),
    [http.TimeFormat], the content type [http.ServeContent] detects from a
    name and a content ([mime.TypeByExtension], else
    [http.DetectContentType]), and what [http.ServeContent] does for a
    request that is neither a plain GET nor a GET for one byte range
    (preconditions, other forms of [Range], HEAD). *)
Variable quote : string -> string.
Variable TimeFormat : Time -> string.
Variable detectContentType : string -> string -> string.
Variable serveConditional :
  ResponseWriter -> Request -> string -> Time -> string -> ResponseWriter.

Fixpoint json_text (j : json) : string :=
  match j with
  | JNull => "null"
  | JBool true => "true"
  | JBool false => "false"
  | JNumber n => pretty n
  | JString s => quote s
  | JArray items =>
      "[" +:+
      (fix elems (l : list json) : string :=
         match l with
         | [] => EmptyString
         | [x] => json_text x
         | x :: rest => json_text x +:+ "," +:+ elems rest
         end) items
      +:+ "]"
  | JObject members =>
      "{" +:+
      (fix fields (l : list (string * json)) : string :=
         match l with
         | [] => EmptyString
         | [(k, v)] => quote k +:+ ":" +:+ json_text v
         | (k, v) :: rest =>
             quote k +:+ ":" +:+ json_text v +:+ "," +:+ fields rest
         end) members
      +:+ "}"
  end.

(** [json.Marshal(v)]. *)
Definition json_Marshal (v : value) : M (string + error) :=
  match v with
  | Encodable j => mret (inl (json_text j))
  | Unsupported typ =>
      fun σ =>
        (inr (typedError (nextAddr σ) "*json.UnsupportedTypeError"
                ("json: unsupported type: " +:+ typ)),
         allocated σ)
  end.

(** [json.NewEncoder(w).Encode(v)]: the encoding and a newline, or the
    error and nothing written. *)
Definition json_Encode (w : ResponseWriter) (v : value)
  : M (ResponseWriter * option error) :=
  b ← json_Marshal v;
  match b with
  | inl text => mret (Write w (text +:+ nl), None)
  | inr err => mret (w, Some err)
  end.

(** The struct as [encoding/json] reads it through its field tags. *)
Definition ErrorResponse_json (e : ErrorResponse) : json :=
  JObject [("err", JString (Err_ e)); ("message", JString (Message e))].

(** Method [JSON] of [ErrorResponse]. *)
Definition JSON (e : ErrorResponse) : M string :=
  b ← json_Marshal (Encodable (ErrorResponse_json e));
  match b with
  | inr err => fmt_Println (Error err);; mret EmptyString
  | inl b => mret b
  end.

(** ** withError *)

Definition HandlerFunc : Type :=
  ResponseWriter -> Request ->
  M (ResponseWriter * (option value * Z * option error)).

Definition withError (next : HandlerFunc)
  (w : ResponseWriter) (r : Request) : M handled :=
  '(w, (result, code, err)) ← next w r;
  match err with
  | Some err =>
      fmt_Println (Error err);;
      j ← JSON (Err err []);
      mret (http_Error_checked w j code)
  | None =>
      match result with
      | None =>
          err ← match err with
                | None => errors_New "no response"
                | Some err => mret err
                end;
          fmt_Println (Error err);;
          j ← JSON (Err err ["no response"]);
          mret (http_Error_checked w j code)
      | Some result =>
          '(w, err) ← json_Encode w result;
          match err with
          | Some err =>
              fmt_Println (Error err);;
              j ← JSON (Err err []);
              mret (http_Error_checked w j code)
          | None => mret (Answered w)
          end
      end
  end.

(** ** http.ServeContent

    Two paths of [serveContent].  A GET request that carries neither a
    precondition nor a [Range] header: detect the content type unless the
    handler set one, announce length and range support, send status 200 and
    the whole content.  A GET request with one byte range inside the content
    and no precondition: the same, with [Content-Range], status 206 and the
    bytes of the range only.  Every other request is left to
    [serveConditional]. *)

Definition conditionalHeaders : list string :=
  ["If-Match"; "If-Unmodified-Since"; "If-None-Match";
   "If-Modified-Since"; "If-Range"; "Range"].

Definition plainGET (r : Request) : bool :=
  bool_decide (Method r = "GET")
  && forallb (fun k => bool_decide (ReqHeader r !! k = None))
       conditionalHeaders.

(** The one form of [Range] header the model reads, out of those
    [parseRange] of [net/http] takes: [bytes=], digits, a dash, digits, with
    a first byte inside the content and not after the last byte asked for.
    The answer is the first byte and the number of bytes, the last byte
    clamped to the end of the content.  Digits are read into [N]; a last
    byte that does not fit a 64-bit integer is no such range. *)
Definition isDigit (c : ascii) : bool :=
  let n := Ascii.nat_of_ascii c in (48 <=? n)%nat && (n <=? 57)%nat.

Fixpoint parseDigitsFrom (s : string) (acc : N) : option N :=
  match s with
  | EmptyString => Some acc
  | String c rest =>
      if isDigit c
      then parseDigitsFrom rest
             (10 * acc + (N.of_nat (Ascii.nat_of_ascii c) - 48))%N
      else None
  end.

Definition parseDigits (s : string) : option N :=
  match s with
  | EmptyString => None
  | _ => parseDigitsFrom s 0%N
  end.

Fixpoint stripPrefix (prefix s : string) : option string :=
  match prefix, s with
  | EmptyString, _ => Some s
  | String a prefix', String b s' =>
      if Ascii.eqb a b then stripPrefix prefix' s' else None
  | String _ _, EmptyString => None
  end.

(** The text before the first dash and the text after it. *)
Fixpoint splitDash (s before : string) : option (string * string) :=
  match s with
  | EmptyString => None
  | String c rest =>
      if Ascii.eqb c "-" then Some (before, rest)
      else splitDash rest (before +:+ String c EmptyString)
  end.

Definition singleRange (value : string) (size : nat) : option (nat * nat) :=
  match stripPrefix "bytes=" value with
  | None => None
  | Some spec =>
      match splitDash spec EmptyString with
      | None => None
      | Some (first, last) =>
          match parseDigits first, parseDigits last with
          | Some a, Some b =>
              if (a <? N.of_nat size)%N && (a <=? b)%N
                 && (b <? 2 ^ 63)%N
              then Some (N.to_nat a,
                         N.to_nat (N.min b (N.of_nat size - 1) - a + 1))
              else None
          | _, _ => None
          end
      end
  end.

(** A GET that carries such a [Range] header and no precondition header. *)
Definition rangeGET (r : Request) (size : nat) : option (nat * nat) :=
  if bool_decide (Method r = "GET")
     && forallb (fun k => bool_decide (ReqHeader r !! k = None))
          ["If-Match"; "If-Unmodified-Since"; "If-None-Match";
           "If-Modified-Since"; "If-Range"]
  then match ReqHeader r !! "Range" with
       | Some (value :: _) => singleRange value size
       | _ => None
       end
  else None.

Definition StatusPartialContent : Z := 206.

(** [isZeroTime]: the zero [time.Time] (year 1) or the Unix epoch, in
    seconds since the epoch. *)
Definition isZeroTime (t : Time) : bool :=
  bool_decide (t = (-62135596800)%Z) || bool_decide (t = 0%Z).

Definition http_ServeContent (w : ResponseWriter) (r : Request)
  (name : string) (modtime : Time) (content : string) : ResponseWriter :=
  if plainGET r then
    let w := if isZeroTime modtime then w
             else Header_Set w "Last-Modified" (TimeFormat modtime) in
    let w := match header w !! "Content-Type" with
             | Some _ => w
             | None =>
                 Header_Set w "Content-Type" (detectContentType name content)
             end in
    let w := Header_Set w "Accept-Ranges" "bytes" in
    let w := if bool_decide (Header_Get w "Content-Encoding" = EmptyString)
             then Header_Set w "Content-Length"
                    (pretty (String.length content))
             else w in
    let w := WriteHeader w StatusOK in
    Write w content
  else
    match rangeGET r (String.length content) with
    | Some (start, len) =>
        let w := if isZeroTime modtime then w
                 else Header_Set w "Last-Modified" (TimeFormat modtime) in
        let w := match header w !! "Content-Type" with
                 | Some _ => w
                 | None =>
                     Header_Set w "Content-Type"
                       (detectContentType name content)
                 end in
        let w := Header_Set w "Content-Range"
                   ("bytes " +:+ pretty start +:+ "-"
                    +:+ pretty (start + len - 1) +:+ "/"
                    +:+ pretty (String.length content)) in
        let w := Header_Set w "Accept-Ranges" "bytes" in
        let w := if bool_decide (Header_Get w "Content-Encoding" = EmptyString)
                 then Header_Set w "Content-Length" (pretty len)
                 else w in
        let w := WriteHeader w StatusPartialContent in
        Write w (String.substring start len content)
    | None => serveConditional w r name modtime content
    end.

(** ** blobHandler *)

(** [fmt.Sprintf] with the format [%s;filename=%s]. *)
Definition Sprintf_disposition (a b : string) : string :=
  a +:+ ";filename=" +:+ b.

(** Lines 212 to 215: the headers the handler sets for a blob it found. *)
Definition blobHeaders (blob : Blob) (w : ResponseWriter) : ResponseWriter :=
  let w := if bool_decide (MimeType blob ≠ EmptyString)
              && bool_decide (MimeType blob ≠ "unknown")
           then Header_Add w "Content-Type" (MimeType blob)
           else w in
  Header_Add w "Content-Disposition"
    (Sprintf_disposition "attachment" (FileName blob)).

Definition blobHandler (w : ResponseWriter) (r : Request)
  : M ResponseWriter :=
  let blobFilename := chi_URLParam r "blob_id" in
  found ← Blobs_FileName_EQ_OneG blobFilename;
  match found with
  | inr err =>
      j ← JSON (Err err []);
      mret (http_Error w j StatusBadRequest)
  | inl blob =>
      let w := blobHeaders blob w in
      now ← time_Now;
      mret (http_ServeContent w r (FileName blob) now (File blob))
  end.


Definition ErrNotImplemented : error := errorString 1%positive "not implemented".

Definition metricsHandler : HandlerFunc :=
  fun w r => mret (w, (None, 200%Z, Some ErrNotImplemented)).

End Handlers.

(** The mime type test of line 212, as a proposition. *)
Definition mimeKnown (blob : Blob) : Prop :=
  MimeType blob ≠ EmptyString ∧ MimeType blob ≠ "unknown".

(** ** text/template

    The fragment of [text/template] that [caddyfileTemplate] uses: literal
    text, copied as it is, and actions [{{ .name }}] that print the entry
    [name] of the data map.  Any other action makes [template_Parse] fail;
    the constant below contains none. *)

Inductive node : Type :=
| TextNode (text : string)
| FieldNode (name : string).

Definition isSpace (c : ascii) : bool :=
  (Ascii.eqb c " " || Ascii.eqb c (Ascii.ascii_of_nat 9)
   || Ascii.eqb c (Ascii.ascii_of_nat 10)
   || Ascii.eqb c (Ascii.ascii_of_nat 13))%char.

Definition isAlphaNumeric (c : ascii) : bool :=
  let n := Ascii.nat_of_ascii c in
  bool_decide (n = 95)%nat || bool_decide (48 ≤ n ≤ 57)%nat
  || bool_decide (65 ≤ n ≤ 90)%nat || bool_decide (97 ≤ n ≤ 122)%nat.

Fixpoint trimLeft (s : string) : string :=
  match s with
  | String c rest => if isSpace c then trimLeft rest else s
  | EmptyString => s
  end.

Fixpoint allChars (p : ascii -> bool) (s : string) : bool :=
  match s with
  | String c rest => p c && allChars p rest
  | EmptyString => true
  end.

Definition trimSpace (s : string) : string :=
  String.rev (trimLeft (String.rev (trimLeft s))).

(** The inside of an action: a dot and an identifier. *)
Definition parseAction (inside : string) : option node :=
  match trimSpace inside with
  | String "." name =>
      if allChars isAlphaNumeric name && negb (bool_decide (name = EmptyString))
      then Some (FieldNode name)
      else None
  | _ => None
  end.

Definition textNode (text : string) : list node :=
  match text with
  | EmptyString => []
  | _ => [TextNode text]
  end.

Inductive lexState : Type := inText | inAction.

(** The lexer: [cur] is the text read since the last delimiter. *)
Fixpoint lex (s : string) (st : lexState) (cur : string)
  : option (list node) :=
  match s with
  | EmptyString =>
      match st with
      | inText => Some (textNode cur)
      | inAction => None
      end
  | String c s' =>
      match st, s' with
      | inText, String c' rest =>
          if (Ascii.eqb c "{" && Ascii.eqb c' "{")%char
          then (textNode cur ++.) <$> lex rest inAction EmptyString
          else lex s' st (cur +:+ String c EmptyString)
      | inAction, String c' rest =>
          if (Ascii.eqb c "}" && Ascii.eqb c' "}")%char
          then
            match parseAction cur with
            | Some n => (n ::.) <$> lex rest inText EmptyString
            | None => None
            end
          else lex s' st (cur +:+ String c EmptyString)
      | _, EmptyString => lex s' st (cur +:+ String c EmptyString)
      end
  end.

(** [template.New(name).Parse(text)]. *)
Definition template_Parse (text : string) : option (list node) :=
  lex text inText EmptyString.

(** [Execute(buf, data)] on a [bytes.Buffer] holding [buf] and a
    [map[string]string]: each node is written to the buffer in turn.  An
    absent key prints as [<no value>].  Neither the lookup nor the write can
    fail, so the error is always nil. *)
Fixpoint template_Execute (t : list node) (buf : string)
  (data : gmap string string) : string * option error :=
  match t with
  | [] => (buf, None)
  | TextNode text :: rest => template_Execute rest (buf +:+ text) data
  | FieldNode name :: rest =>
      template_Execute rest (buf +:+ default "<no value>" (data !! name)) data
  end.

Definition unlines (lines : list string) : string :=
  match lines with
  | [] => EmptyString
  | l :: rest => foldl (fun acc x => acc +:+ nl +:+ x) l rest
  end.

(** The raw string literal of the source, one element per line; the literal
    begins and ends with a newline. *)
Definition caddyfileTemplate : string :=
  unlines [
    "";
    "{{ .caddyAddr}} {";
    tab +:+ "tls off";
    "    proxy /api/ localhost{{ .apiAddr }} {";
    tab +:+ tab +:+ "transparent";
    tab +:+ tab +:+ "websocket";
    tab +:+ tab +:+ "timeout 10m";
    "    }";
    "    root {{ .rootPath }}";
    "    rewrite { ";
    "        if {path} not_match ^/api";
    "        to {path} /";
    "    }";
    "}";
    ""
  ].

(** ** The two servers *)

(** A [context.Context] made by [context.WithCancel]: whether its [cancel]
    function has been called. *)
Record Context := { cancelled : bool }.

(** A [zap.SugaredLogger], by the name of its service; [Infow] records the
    message with its keys and values. *)
Definition Logger := string.

Definition log_Infow (log : Logger) (msg : string)
  (kvs : list (string * string)) : M unit :=
  fun σ => (tt, logging (msg, kvs) σ).

(** The chi router [RunServer] builds: the middleware stack in the order of
    the [Use] calls, and the routes under [/api]. *)
Inductive routeHandler : Type :=
| BlobHandler       (* c.blobHandler() *)
| PromHandler.      (* promhttp.Handler().ServeHTTP *)

Record Router := {
  middlewares : list string;
  routes : list (string * string * routeHandler);
  sessions : bool;    (* wrapped by sessionManager.LoadAndSave *)
}.

Record CaddyfileInput := {
  Contents : string;
  Filepath : string;
  ServerTypeName : string;
}.

(** How a call that serves ends: it returns, or it is still blocked. *)
Inductive blocking (A : Type) : Type :=
| Returns (a : A)
| Blocks.
Arguments Returns {A} a.
Arguments Blocks {A}.

Inductive run_result : Type :=
| Returned (err : option error)
| Blocked
| Panicked.

Inductive outcome (A : Type) : Type :=
| Value (a : A)
| Failed (err : error)
| Panic.
Arguments Value {A} a.
Arguments Failed {A} err.
Arguments Panic {A}.

(** The assignments to [caddy.AppName], [caddy.AppVersion], [caddy.Quiet]. *)
Definition caddy_setApp (app : CaddyApp) : M unit :=
  fun σ => (tt, withCaddyApp app σ).

(** Lines 162 to 182 of [RunLoadBalancer]: the log line, the three
    assignments to package variables of caddy, the rendering of the template
    into a fresh buffer, and the input built for [caddy.Start].
    [template.Must] panics when the template does not parse. *)
Definition loadBalancerCaddyfile (ctx : Context) (conn : Store)
  (loadBalancerAddr serverAddr rootPath : string) (log : Logger)
  : M (outcome CaddyfileInput) :=
  log_Infow log "start load balancer"
    [("lb-addr", loadBalancerAddr); ("svc-addr", serverAddr);
     ("web", rootPath)];;
  caddy_setApp {| AppName := "Doco"; AppVersion := "0.0.1"; Quiet := true |};;
  match template_Parse caddyfileTemplate with
  | None => mret Panic
  | Some t =>
      let data : gmap string string :=
        {[ "caddyAddr" := loadBalancerAddr;
           "apiAddr" := serverAddr;
           "rootPath" := rootPath ]} in
      let '(result, err) := template_Execute t EmptyString data in
      match err with
      | Some err => mret (Failed err)
      | None =>
          mret (Value {| Contents := result; Filepath := "Caddyfile";
                         ServerTypeName := "http" |})
      end
  end.

(** The router of [RunServer], lines 125 to 151, wrapped by
    [sessionManager.LoadAndSave] on line 153. *)
Definition apiRouter : Router :=
  {| middlewares := ["cors"; "RequestID"; "RealIP"; "Logger"; "Recoverer"];
     routes := [("GET", "/api/blobs/{blob_id}", BlobHandler);
                ("GET", "/api/metrics", PromHandler)];
     sessions := true |}.

Section Servers.

(** The listeners belong to [net/http] and to caddy.  [Env] is what the
    network and the operating system do while a server runs; each library
    call sees the arguments the package passes to it and [Env]. *)
Variable Env : Type.
Variable Instance : Type.
Variable http_ListenAndServe : string -> Router -> Env -> blocking error.
Variable caddy_Start : CaddyfileInput -> Env -> Instance + error.
Variable instance_Wait : Instance -> Env -> blocking unit.

Definition RunServer (ctx : Context) (conn : Store)
  (serverAddr jwtsecret : string) (log : Logger) (env : Env)
  : M run_result :=
  log_Infow log "start api" [("svc-addr", serverAddr)];;
  let r := apiRouter in
  match http_ListenAndServe serverAddr r env with
  | Returns err => mret (Returned (Some err))
  | Blocks => mret Blocked
  end.

Definition RunLoadBalancer (ctx : Context) (conn : Store)
  (loadBalancerAddr serverAddr rootPath : string) (log : Logger)
  (env : Env) : M run_result :=
  o ← loadBalancerCaddyfile ctx conn loadBalancerAddr serverAddr rootPath
        log;
  match o with
  | Panic => mret Panicked
  | Failed err => mret (Returned (Some err))
  | Value caddyfile =>
      match caddy_Start caddyfile env with
      | inr err => mret (Returned (Some err))
      | inl instance =>
          match instance_Wait instance env with
          | Returns _ => mret (Returned None)
          | Blocks => mret Blocked
          end
      end
  end.

End Servers.

(** ** main: the two actors

    [main] makes one context with [context.WithCancel] and registers two
    actors with the same interrupt function: print the error that ended the
    group, then call [cancel]. *)

Definition cancel (ctx : Context) : Context := {| cancelled := true |}.

Definition interrupt (err : option error) (ctx : Context) : M Context :=
  fmt_Println (from_option Error "<nil>" err);;
  mret (cancel ctx).

(** ** Error chains

    [errors.Unwrap] and [errors.Is] of Go 1.13 on the error values above, and
    [fmt.Errorf] with a format that ends in [%w].  Only [fmt.wrapError]
    wraps; errors of the other types have no [Unwrap] and no [Is] method. *)

#[global] Instance error_eq_dec : EqDecision error.
Proof. solve_decision. Defined.

Definition errors_Unwrap (err : error) : option error :=
  match err with
  | wrapError _ _ inner => Some inner
  | _ => None
  end.

Fixpoint errors_Is (err target : error) : bool :=
  bool_decide (err = target)
  || match err with
     | wrapError _ _ inner => errors_Is inner target
     | _ => false
     end.

(** The address an error value lives at. *)
Definition addrOf (err : error) : addr :=
  match err with
  | errorString p _ => p
  | wrapError p _ _ => p
  | typedError p _ _ => p
  end.

(** [fmt.Errorf(prefix + "%w", err)]: a fresh [wrapError] whose text is the
    prefix followed by the text of [err]. *)
Definition fmt_Errorf_w (prefix : string) (err : error) : M error :=
  fun σ => (wrapError (nextAddr σ) (prefix +:+ Error err) err, allocated σ).

(** Every error value in the chain of [err] lives at an address below
    [n]: it was allocated before the allocator reached [n]. *)
Fixpoint allocatedBefore (n : addr) (err : error) : Prop :=
  match err with
  | errorString p _ => (p < n)%positive
  | typedError p _ _ => (p < n)%positive
  | wrapError p _ inner => (p < n)%positive ∧ allocatedBefore n inner
  end.

(** ** Migrations (the second file of package [doco]) *)

Section Migrations.

(** The migration library and its drivers: the source driver built over the
    embedded assets, the sqlite3 database driver, the migrator, and its
    three operations.  Each is what the library answers for the arguments
    the package passes. *)
Variable SourceDriver DatabaseDriver Migrator : Type.
Variable bindata_WithInstance : SourceDriver + error.
Variable sqlite3_WithInstance : Store -> DatabaseDriver + error.
Variable migrate_NewWithInstance :
  SourceDriver -> DatabaseDriver -> Migrator + error.
Variable m_Up : Migrator -> option error.
Variable m_Drop : Migrator -> option error.
Variable m_Version : Migrator -> (N * bool) + error.

Definition newMigrateInstance (conn : Store) : M (Migrator + error) :=
  match bindata_WithInstance with
  | inr err => e ← fmt_Errorf_w "bindata instance: " err; mret (inr e)
  | inl d =>
      match sqlite3_WithInstance conn with
      | inr err => e ← fmt_Errorf_w "db instance: " err; mret (inr e)
      | inl dbDriver =>
          match migrate_NewWithInstance d dbDriver with
          | inr err => e ← fmt_Errorf_w "migrate instance: " err; mret (inr e)
          | inl m => mret (inl m)
          end
      end
  end.

Definition Migrate (conn : Store) : M (option error) :=
  r ← newMigrateInstance conn;
  match r with
  | inr err => e ← fmt_Errorf_w "migrate: " err; mret (Some e)
  | inl m =>
      match m_Up m with
      | Some err => e ← fmt_Errorf_w "migrate: " err; mret (Some e)
      | None => mret None
      end
  end.

Definition Drop (conn : Store) : M (option error) :=
  r ← newMigrateInstance conn;
  match r with
  | inr err => e ← fmt_Errorf_w "migrate: " err; mret (Some e)
  | inl m =>
      match m_Drop m with
      | Some err => e ← fmt_Errorf_w "migrate: " err; mret (Some e)
      | None => mret None
      end
  end.

(** [Version]: the Go result [(uint, bool, error)]. *)
Definition Version (conn : Store) : M (N * bool * option error) :=
  r ← newMigrateInstance conn;
  match r with
  | inr err => e ← fmt_Errorf_w "migrate: " err; mret (0%N, false, Some e)
  | inl m =>
      match m_Version m with
      | inr err => e ← fmt_Errorf_w "migrate: " err; mret (0%N, false, Some e)
      | inl (v, d) => mret (v, d, None)
      end
  end.

(** The library error behind a failure to build the migrator, and the
    prefix of the stage that failed. *)
Definition instanceFailure (conn : Store) (stage : string) (cause : error)
  : Prop :=
  (stage = "bindata instance: " ∧ bindata_WithInstance = inr cause)
  ∨ (stage = "db instance: "
     ∧ ∃ d, bindata_WithInstance = inl d
            ∧ sqlite3_WithInstance conn = inr cause)
  ∨ (stage = "migrate instance: "
     ∧ ∃ d dbDriver, bindata_WithInstance = inl d
                     ∧ sqlite3_WithInstance conn = inl dbDriver
                     ∧ migrate_NewWithInstance d dbDriver = inr cause).

Definition instanceBuilt (conn : Store) (m : Migrator) : Prop :=
  ∃ d dbDriver, bindata_WithInstance = inl d
                ∧ sqlite3_WithInstance conn = inl dbDriver
                ∧ migrate_NewWithInstance d dbDriver = inl m.

End Migrations.

(** [Seed]: it does nothing yet. *)
Definition Seed (masterKeyHex : string) : M (option error) := mret None.

(** ** main (the command) *)

(** [Config], filled by [envconfig.Process] from the environment and the
    [default] tags. *)
Record Config := {
  MasterKey : string;
  JWTSecret : string;
  StepMinutes : Z;
  RootPath : string;
  ServerAddr : string;
  LoadBalancerAddr : string;
}.

(** The values of the [default] tags. *)
Definition defaultConfig : Config :=
  {| MasterKey :=
       "9A1F3DE2BB279CB966CC1167BC6C538FDE97268E3EE5F581D918309409520AE3";
     JWTSecret := "contractible-roasted-mollusk";
     StepMinutes := 5;
     RootPath := "./web/dist";
     ServerAddr := ":8081";
     LoadBalancerAddr := ":8080" |}.

(** The two flags after [flag.Parse]. *)
Record Flags := {
  dbseed : bool;       (* -db-seed *)
  showConfig : bool;   (* -config *)
}.

(** How the process ends. *)
Inductive mainResult : Type :=
| MainReturns                (* main returns: exit status 0 *)
| LogFatal (msg : string)    (* log.Fatal, log.Fatalln: exit status 1 *)
| FlagExit (code : Z).       (* flag.Parse ends the process itself *)

Definition exitStatus (r : mainResult) : Z :=
  match r with
  | MainReturns => 0
  | LogFatal _ => 1
  | FlagExit code => code
  end.

(** An actor of [run.Group]: the function that runs and the function that
    interrupts it. *)
Record Actor := {
  execute : M run_result;
  interruptWith : option error -> M Context;
}.

(** [boil.SetDB(conn)]. *)
Definition boil_SetDB (conn : Store) : M unit :=
  fun σ => (tt, {| db := conn; clock := clock σ; nextAddr := nextAddr σ;
                   stdout := stdout σ; logged := logged σ;
                   caddyApp := caddyApp σ |}).

Fixpoint printLines (lines : list string) : M unit :=
  match lines with
  | [] => mret tt
  | l :: rest => fmt_Println l;; printLines rest
  end.

Section Main.

(** What [main] gets from outside the package: the listeners as for the
    servers, [run.Group.Run] on the registered actors, the table
    [envconfig.Usage] prints, and the three things the process reads at
    start: the configuration [envconfig.Process] builds or its error, the
    flags or the exit [flag.Parse] takes, the connection [sqlx.Connect]
    opens or its error. *)
Variable Env : Type.
Variable Instance : Type.
Variable http_ListenAndServe : string -> Router -> Env -> blocking error.
Variable caddy_Start : CaddyfileInput -> Env -> Instance + error.
Variable instance_Wait : Instance -> Env -> blocking unit.
Variable group_Run : list Actor -> M (option error).
Variable envconfig_Usage : Config -> list string.

(** [connect]: the connection or the error of [sqlx.Connect], unchanged. *)
Definition connect (connected : Store + error) : Store + error :=
  match connected with
  | inr err => inr err
  | inl conn => inl conn
  end.

(** The two actors [main] adds to the group. *)
Definition actors (c : Config) (conn : Store) (ctx : Context) (env : Env)
  : list Actor :=
  [ {| execute := RunServer Env http_ListenAndServe ctx conn (ServerAddr c)
                    (JWTSecret c) "server" env;
       interruptWith := fun err => interrupt err ctx |};
    {| execute := RunLoadBalancer Env Instance caddy_Start instance_Wait ctx
                    conn (LoadBalancerAddr c) (ServerAddr c) (RootPath c)
                    "lb" env;
       interruptWith := fun err => interrupt err ctx |} ].

Definition main (processed : Config + error) (parsed : Flags + Z)
  (connected : Store + error) (env : Env) : M mainResult :=
  match processed with
  | inr err => mret (LogFatal (Error err))
  | inl c =>
      match parsed with
      | inr code => mret (FlagExit code)
      | inl flags =>
          match connect connected with
          | inr err => fmt_Println (Error err);; mret MainReturns
          | inl conn =>
              boil_SetDB conn;;
              if showConfig flags then
                printLines (envconfig_Usage c);; mret MainReturns
              else if dbseed flags then
                fmt_Println "Seeding doco system...";;
                err ← Seed (MasterKey c);
                match err with
                | Some err => fmt_Println (Error err);; mret MainReturns
                | None => mret MainReturns
                end
              else
                fmt_Println "Booting up doco system...";;
                let ctx := {| cancelled := false |} in
                res ← group_Run (actors c conn ctx env);
                mret (LogFatal (from_option Error "<nil>" res))
          end
      end
  end.

End Main.

(** The servers are booted exactly when the configuration was read, the
    flags were parsed, the database was opened and neither flag is set. *)
Definition boots (processed : Config + error) (parsed : Flags + Z)
  (connected : Store + error) : Prop :=
  ∃ c flags conn,
    processed = inl c ∧ parsed = inl flags ∧ connected = inl conn
    ∧ showConfig flags = false ∧ dbseed flags = false.

(** The number of line breaks in a text. *)
Fixpoint countNewlines (s : string) : nat :=
  match s with
  | EmptyString => 0
  | String c rest =>
      (if Ascii.eqb c (Ascii.ascii_of_nat 10) then 1 else 0)
      + countNewlines rest
  end.

(** ** Reading a configuration text

    The lines of a text, and on each line the words that white space
    separates: the directive of a Caddyfile line and its arguments, in the
    absence of quotes and comments.  Lines without a word are left out. *)











(** What [json.Marshal] writes for an envelope with the fields [e] and [m],
    given the string encoding [quote]. *)
Definition envelopeText (quote : string -> string) (e m : string) : string :=
  "{" +:+ quote "err" +:+ ":" +:+ quote e +:+ ","
  +:+ quote "message" +:+ ":" +:+ quote m +:+ "}".

(** ** Sample inputs

    The blob and the keys of the delivery examples of the specification, a
    quoting function that is right for strings without special characters,
    and fixed answers for the other library functions. *)

Definition quote0 (s : string) : string := dq +:+ s +:+ dq.
Definition TimeFormat0 (t : Time) : string := pretty t.
Definition detect0 (name content : string) : string :=
  "application/octet-stream".
Definition serveConditional0 (w : ResponseWriter) (r : Request)
  (name : string) (modtime : Time) (content : string) : ResponseWriter := w.

Definition sql_ErrNoRows : error :=
  errorString 2%positive "sql: no rows in result set".

Definition migrateError : error :=
  wrapError 3%positive "migrate: sql: no rows in result set" sql_ErrNoRows.

Definition blob_a_png : Blob :=
  {| FileName := "a.png"; MimeType := "image/png"; File := "PNG-bytes" |}.

Definition blob_unknown : Blob :=
  {| FileName := "notes"; MimeType := "unknown"; File := "text" |}.

Definition store0 : Store :=
  fun key =>
    if bool_decide (key = "a.png") then inl blob_a_png
    else if bool_decide (key = "notes") then inl blob_unknown
    else inr sql_ErrNoRows.

Definition world0 : World :=
  {| db := store0; clock := 1600000000%Z; nextAddr := 4%positive;
     stdout := []; logged := [];
     caddyApp := {| AppName := EmptyString; AppVersion := EmptyString;
                    Quiet := false |} |}.

Definition GET_blob (key : string) : Request :=
  {| Method := "GET"; ReqHeader := ∅; URLParams := {[ "blob_id" := key ]} |}.

(** A handler that returns [nil, 200, nil] and writes nothing. *)
Definition silentHandler : HandlerFunc :=
  fun w r => mret (w, (None, 200%Z, None)).

(** A handler that returns the zero values [nil, 0, nil] and writes
    nothing. *)
Definition zeroCodeHandler : HandlerFunc :=
  fun w r => mret (w, (None, 0%Z, None)).

(** A request for a byte range of a blob. *)
Definition GET_blob_range (key range : string) : Request :=
  {| Method := "GET"; ReqHeader := {[ "Range" := [range] ]};
     URLParams := {[ "blob_id" := key ]} |}.

(** A handler that finds nothing: [nil, 404, sql.ErrNoRows]. *)
Definition notFoundHandler : HandlerFunc :=
  fun w r => mret (w, (None, 404%Z, Some sql_ErrNoRows)).

(** A database on which the sqlite3 driver cannot be built, and one on which
    everything works and the schema is at version 3. *)
Definition brokenDriver (conn : Store) : unit + error := inr sql_ErrNoRows.
Definition workingDriver (conn : Store) : unit + error := inl tt.
Definition newMigrator (d dbDriver : unit) : unit + error := inl tt.
Definition upOK (m : unit) : option error := None.
Definition versionIs3 (m : unit) : (N * bool) + error := inl (3%N, false).

(** A handler whose result [encoding/json] cannot encode. *)
Definition channelHandler : HandlerFunc :=
  fun w r => mret (w, (Some (Unsupported "chan int"), 500%Z, None)).

(** A request that matched a route without the [blob_id] parameter. *)
Definition GET_no_param : Request :=
  {| Method := "GET"; ReqHeader := ∅; URLParams := ∅ |}.

(** A writer on which a middleware has set a content type. *)
Definition writerWithType : ResponseWriter :=
  Header_Set NewResponseWriter "Content-Type" "application/json".

(** A group whose [Run] returns nil (every actor stopped without error), a
    usage table, and listeners that keep serving. *)
Definition groupReturnsNil (actors : list Actor) : M (option error) :=
  mret None.
Definition usage0 (c : Config) : list string :=
  ["KEY"; "DOCO_SERVERADDR " +:+ ServerAddr c].
Definition listenForever (addr : string) (r : Router) (env : unit)
  : blocking error := Blocks.
Definition startOK (c : CaddyfileInput) (env : unit) : unit + error := inl tt.
Definition waitForever (inst : unit) (env : unit) : blocking unit := Blocks.

(** * Properties *)

(** ** Strings *)

Lemma append_assoc (a b c : string) : (a +:+ b) +:+ c = a +:+ (b +:+ c).
Proof.
  induction a as [|x a IH]; [reflexivity|].
  change (String x ((a +:+ b) +:+ c) = String x (a +:+ (b +:+ c))).
  by rewrite IH.
Qed.


(** ** The proxy configuration *)

(** The template parses into four runs of text around the three fields. *)
Lemma caddyfileTemplate_parses :
  template_Parse caddyfileTemplate =
  Some [TextNode nl; FieldNode "caddyAddr";
        TextNode (" {" +:+ nl +:+ tab +:+ "tls off" +:+ nl
                  +:+ "    proxy /api/ localhost");
        FieldNode "apiAddr";
        TextNode (" {" +:+ nl +:+ tab +:+ tab +:+ "transparent" +:+ nl
                  +:+ tab +:+ tab +:+ "websocket" +:+ nl
                  +:+ tab +:+ tab +:+ "timeout 10m" +:+ nl
                  +:+ "    }" +:+ nl +:+ "    root ");
        FieldNode "rootPath";
        TextNode (nl +:+ "    rewrite { " +:+ nl
                  +:+ "        if {path} not_match ^/api" +:+ nl
                  +:+ "        to {path} /" +:+ nl
                  +:+ "    }" +:+ nl +:+ "}" +:+ nl)].
Proof. vm_compute. reflexivity. Qed.

Lemma caddyfile_data_lookup (l u r : string) :
  let data : gmap string string :=
    {[ "caddyAddr" := l; "apiAddr" := u; "rootPath" := r ]} in
  data !! "caddyAddr" = Some l ∧ data !! "apiAddr" = Some u
  ∧ data !! "rootPath" = Some r.
Proof. cbv zeta. by simplify_map_eq. Qed.

(** Executing field and text nodes appends to the buffer and never fails. *)
Lemma template_Execute_app (t1 t2 : list node) buf data :
  template_Execute (t1 ++ t2) buf data =
  template_Execute t2 (fst (template_Execute t1 buf data)) data.
Proof.
  revert buf. induction t1 as [|[text|name] t1 IH]; intros buf; simpl; auto.
Qed.

Lemma template_Execute_no_error (t : list node) buf data :
  snd (template_Execute t buf data) = None.
Proof.
  revert buf. induction t as [|[text|name] t IH]; intros buf; simpl; auto.
Qed.

Lemma loadBalancerCaddyfile_contents ctx conn l u r log σ :
  fst (loadBalancerCaddyfile ctx conn l u r log σ) =
  Value {| Contents :=
             nl +:+ l +:+ " {" +:+ nl +:+ tab +:+ "tls off" +:+ nl
             +:+ "    proxy /api/ localhost" +:+ u
             +:+ " {" +:+ nl +:+ tab +:+ tab +:+ "transparent" +:+ nl
             +:+ tab +:+ tab +:+ "websocket" +:+ nl
             +:+ tab +:+ tab +:+ "timeout 10m" +:+ nl
             +:+ "    }" +:+ nl +:+ "    root " +:+ r
             +:+ nl +:+ "    rewrite { " +:+ nl
             +:+ "        if {path} not_match ^/api" +:+ nl
             +:+ "        to {path} /" +:+ nl
             +:+ "    }" +:+ nl +:+ "}" +:+ nl;
           Filepath := "Caddyfile"; ServerTypeName := "http" |}.
Proof.
  unfold loadBalancerCaddyfile. rewrite caddyfileTemplate_parses.
  destruct (caddyfile_data_lookup l u r) as (Hl & Hu & Hr).
  cbv zeta in Hl, Hu, Hr.
  unfold mbind, M_bind, log_Infow, caddy_setApp. cbn [template_Execute].
  rewrite Hl, Hu, Hr. cbn [default].
  rewrite !append_assoc. reflexivity.
Qed.

(** C3: the routing configuration is a function of the listen address, the
    upstream address and the static root alone.  Whatever the process state,
    context, database handle and logger of two renderings, the same three
    inputs give the same [caddy.CaddyfileInput], byte for byte, and rendering
    neither panics nor fails. *)
Theorem caddyfile_rendering_deterministic
  (l u r : string) (ctx ctx' : Context) (conn conn' : Store)
  (log log' : Logger) (σ σ' : World) :
  fst (loadBalancerCaddyfile ctx conn l u r log σ)
  = fst (loadBalancerCaddyfile ctx' conn' l u r log' σ')
  ∧ fst (loadBalancerCaddyfile ctx conn l u r log σ)
    = fst (loadBalancerCaddyfile ctx conn l u r log
             (snd (loadBalancerCaddyfile ctx conn l u r log σ)))
  ∧ ∃ text,
      fst (loadBalancerCaddyfile ctx conn l u r log σ)
      = Value {| Contents := text; Filepath := "Caddyfile";
                 ServerTypeName := "http" |}.
Proof.
  rewrite !loadBalancerCaddyfile_contents.
  split; [reflexivity|]. split; [reflexivity|]. eexists. reflexivity.
Qed.














(** C10: whatever the upstream address [u], the target of the [proxy]
    directive in the generated configuration is the text [localhost]
    immediately followed by [u]: the host is fixed, a port-style address
    such as [:8081] gives [localhost:8081], and an address with a host of
    its own, such as [api.internal:8081], gives
    [localhostapi.internal:8081]. *)
Theorem caddyfile_proxy_target
  (l u r : string) (ctx : Context) (conn : Store) (log : Logger) (σ : World) :
  let before := nl +:+ l +:+ " {" +:+ nl +:+ tab +:+ "tls off" +:+ nl in
  let after :=
    tab +:+ tab +:+ "transparent" +:+ nl
    +:+ tab +:+ tab +:+ "websocket" +:+ nl
    +:+ tab +:+ tab +:+ "timeout 10m" +:+ nl
    +:+ "    }" +:+ nl +:+ "    root " +:+ r +:+ nl
    +:+ "    rewrite { " +:+ nl
    +:+ "        if {path} not_match ^/api" +:+ nl
    +:+ "        to {path} /" +:+ nl
    +:+ "    }" +:+ nl +:+ "}" +:+ nl in
  let target := "localhost" +:+ u in
  (Contents <$> match fst (loadBalancerCaddyfile ctx conn l u r log σ) with
                | Value c => Some c
                | _ => None
                end)
  = Some (before +:+ "    proxy /api/ " +:+ target +:+ " {" +:+ nl +:+ after)
  ∧ (u = ":8081" → target = "localhost:8081")
  ∧ (u = "api.internal:8081" → target = "localhostapi.internal:8081").
Proof.
  cbv zeta. rewrite loadBalancerCaddyfile_contents. cbn [fmap option_fmap option_map Contents].
  split; [|split; intros ->; reflexivity].
  f_equal. rewrite !append_assoc. reflexivity.
Qed.

(** ** The error envelope *)

Section Envelope.

Variable quote : string -> string.

(** The wire form of an envelope: an object with the members [err] and
    [message], both strings, in this order. *)
Lemma JSON_two_fields (e : ErrorResponse) (σ : World) :
  JSON quote e σ =
  ("{" +:+ quote "err" +:+ ":" +:+ quote (Err_ e) +:+ ","
   +:+ quote "message" +:+ ":" +:+ quote (Message e) +:+ "}", σ).
Proof.
  unfold JSON, json_Marshal, ErrorResponse_json, mbind, M_bind, mret, M_ret.
  cbn [json_text]. by rewrite !append_assoc.
Qed.

Lemma Err_fields (err : error) (message : list string) :
  Err_ (Err err message) = Error err
  ∧ Message (Err err message) = default (Error err) (head message).
Proof. destruct message; split; reflexivity. Qed.

End Envelope.

(** [http.Error] appends the message and a newline to the body, and sends
    the given status unless one was sent before. *)
Lemma http_Error_response (w : ResponseWriter) (msg : string) (code : Z) :
  body (http_Error w msg code) = body w +:+ msg +:+ nl
  ∧ status (http_Error w msg code) = Some (default code (status w))
  ∧ ∀ k, k ≠ "Content-Type" → k ≠ "X-Content-Type-Options" →
         header (http_Error w msg code) !! k = header w !! k.
Proof.
  unfold http_Error, Write, WriteHeader, Header_Set. cbn [status header body].
  destruct (status w) as [c|]; cbn [status header body default];
    (split; [done|]); (split; [done|]);
    intros k H1 H2; by rewrite !lookup_insert_ne.
Qed.

(** [http.Error] at a code the caller was handed: it goes through when a
    status was sent before or the code passes the check, and panics in
    [WriteHeader], with the two headers set and nothing sent, when not. *)
Lemma http_Error_checked_answers (w : ResponseWriter) (msg : string)
  (code : Z) :
  (status w = None → checkWriteHeaderCode code = true) →
  http_Error_checked w msg code = Answered (http_Error w msg code).
Proof.
  intros Hcode. destruct w as [h [sent|] b]; cbn [status] in Hcode.
  - reflexivity.
  - unfold http_Error_checked, http_Error, WriteHeader_checked.
    cbn [status Header_Set]. by rewrite (Hcode eq_refl).
Qed.

Lemma http_Error_checked_panics (w : ResponseWriter) (msg : string)
  (code : Z) :
  status w = None → checkWriteHeaderCode code = false →
  ∃ w', http_Error_checked w msg code
        = PanicsWith w' ("invalid WriteHeader code " +:+ pretty code)
        ∧ status w' = None ∧ body w' = body w.
Proof.
  intros Hst Hcode. destruct w as [h st b]. cbn [status] in Hst. subst st.
  unfold http_Error_checked, WriteHeader_checked.
  cbn [status Header_Set]. rewrite Hcode. eexists.
  split; [reflexivity|]. done.
Qed.

Lemma answersWithBody_accepted (w : ResponseWriter) (code : Z) :
  answersWithBody w code = true →
  status w = None → checkWriteHeaderCode code = true.
Proof.
  unfold answersWithBody. intros H Hst. rewrite Hst in H.
  by apply andb_true_iff in H as [? _].
Qed.

(** ** Blob delivery *)

Section BlobDelivery.

Variable quote : string -> string.
Variable TimeFormat : Time -> string.
Variable detectContentType : string -> string -> string.
Variable serveConditional :
  ResponseWriter -> Request -> string -> Time -> string -> ResponseWriter.

#[local] Abbreviation handler :=
  (blobHandler quote TimeFormat detectContentType serveConditional).
#[local] Abbreviation serve :=
  (http_ServeContent TimeFormat detectContentType serveConditional).

Lemma mimeKnown_test (blob : Blob) :
  bool_decide (MimeType blob ≠ EmptyString)
  && bool_decide (MimeType blob ≠ "unknown") = true ↔ mimeKnown blob.
Proof.
  unfold mimeKnown. rewrite andb_true_iff, !bool_decide_eq_true. tauto.
Qed.

Lemma blobHandler_found (w : ResponseWriter) (r : Request) (σ : World)
  (blob : Blob) :
  db σ (chi_URLParam r "blob_id") = inl blob →
  handler w r σ =
  (serve (blobHeaders blob w) r (FileName blob) (clock σ)
     (File blob), σ).
Proof.
  intros Hdb. unfold blobHandler, mbind, M_bind,
    Blobs_FileName_EQ_OneG, time_Now, mret, M_ret.
  by rewrite Hdb.
Qed.

Lemma blobHandler_failed (w : ResponseWriter) (r : Request) (σ : World)
  (err : error) :
  db σ (chi_URLParam r "blob_id") = inr err →
  handler w r σ =
  (http_Error w (fst (JSON quote (Err err []) σ)) StatusBadRequest, σ).
Proof.
  intros Hdb. unfold blobHandler, mbind, M_bind,
    Blobs_FileName_EQ_OneG, mret, M_ret.
  rewrite Hdb, JSON_two_fields. reflexivity.
Qed.

(** Header bookkeeping. *)
Lemma header_Add_eq (w : ResponseWriter) (k v : string) :
  header (Header_Add w k v) !! k
  = Some (default [] (header w !! k) ++ [v])%list.
Proof. unfold Header_Add. cbn [header]. by rewrite lookup_insert_eq. Qed.

Lemma header_Add_ne (w : ResponseWriter) (k k' v : string) :
  k ≠ k' → header (Header_Add w k v) !! k' = header w !! k'.
Proof. intros. unfold Header_Add. cbn [header]. by rewrite lookup_insert_ne. Qed.

Lemma header_Set_eq (w : ResponseWriter) (k v : string) :
  header (Header_Set w k v) !! k = Some [v].
Proof. unfold Header_Set. cbn [header]. by rewrite lookup_insert_eq. Qed.

Lemma header_Set_ne (w : ResponseWriter) (k k' v : string) :
  k ≠ k' → header (Header_Set w k v) !! k' = header w !! k'.
Proof. intros. unfold Header_Set. cbn [header]. by rewrite lookup_insert_ne. Qed.

Lemma blobHeaders_content_type (blob : Blob) (w : ResponseWriter) :
  header (blobHeaders blob w) !! "Content-Type" =
  if bool_decide (MimeType blob ≠ EmptyString)
     && bool_decide (MimeType blob ≠ "unknown")
  then Some (default [] (header w !! "Content-Type") ++ [MimeType blob])%list
  else header w !! "Content-Type".
Proof.
  unfold blobHeaders. rewrite header_Add_ne by done.
  destruct (_ && _); [apply header_Add_eq | reflexivity].
Qed.

Lemma blobHeaders_content_disposition (blob : Blob) (w : ResponseWriter) :
  header (blobHeaders blob w) !! "Content-Disposition" =
  Some (default [] (header w !! "Content-Disposition")
        ++ ["attachment;filename=" +:+ FileName blob])%list.
Proof.
  unfold blobHeaders. rewrite header_Add_eq.
  destruct (_ && _); [rewrite header_Add_ne by done|]; reflexivity.
Qed.

Lemma blobHeaders_unwritten (blob : Blob) (w : ResponseWriter) :
  status (blobHeaders blob w) = status w ∧ body (blobHeaders blob w) = body w.
Proof. unfold blobHeaders. by destruct (_ && _). Qed.

(** A plain GET: [http.ServeContent] keeps the headers the handler set,
    sends 200 and appends the whole content. *)
Lemma ServeContent_plain (w : ResponseWriter) (r : Request)
  (name : string) (modtime : Time) (content : string) :
  plainGET r = true → status w = None →
  let resp := serve w r name modtime content in
  status resp = Some StatusOK
  ∧ body resp = body w +:+ content
  ∧ header resp !! "Content-Disposition" = header w !! "Content-Disposition"
  ∧ header resp !! "Content-Type" =
    match header w !! "Content-Type" with
    | Some vs => Some vs
    | None => Some [detectContentType name content]
    end.
Proof.
  intros Hplain Hst. cbv zeta. unfold http_ServeContent.
  rewrite Hplain.
  set (w1 := if isZeroTime modtime then w else _).
  assert (H1 : status w1 = None ∧ body w1 = body w
               ∧ header w1 !! "Content-Disposition"
                 = header w !! "Content-Disposition"
               ∧ header w1 !! "Content-Type" = header w !! "Content-Type").
  { subst w1. destruct (isZeroTime modtime); [done|].
    rewrite !header_Set_ne by done. done. }
  destruct H1 as (Hs1 & Hb1 & Hd1 & Ht1).
  set (w2 := match header w1 !! "Content-Type" with Some _ => w1 | None => _ end).
  assert (H2 : status w2 = None ∧ body w2 = body w
               ∧ header w2 !! "Content-Disposition"
                 = header w !! "Content-Disposition"
               ∧ header w2 !! "Content-Type" =
                 match header w !! "Content-Type" with
                 | Some vs => Some vs
                 | None => Some [detectContentType name content]
                 end).
  { subst w2. rewrite <- Ht1.
    destruct (header w1 !! "Content-Type") as [vs|] eqn:E.
    - rewrite E. done.
    - rewrite header_Set_eq, header_Set_ne by done. done. }
  destruct H2 as (Hs2 & Hb2 & Hd2 & Ht2).
  set (w3 := Header_Set w2 "Accept-Ranges" "bytes").
  set (w4 := if bool_decide _ then _ else w3).
  assert (H4 : status w4 = None ∧ body w4 = body w
               ∧ header w4 !! "Content-Disposition"
                 = header w !! "Content-Disposition"
               ∧ header w4 !! "Content-Type" = header w2 !! "Content-Type").
  { subst w4 w3. destruct (bool_decide _);
      rewrite ?header_Set_ne by done; done. }
  destruct H4 as (Hs4 & Hb4 & Hd4 & Ht4).
  unfold Write, WriteHeader. rewrite Hs4. cbn [status header body].
  rewrite Hb4, Hd4, Ht4, Ht2. done.
Qed.

(** C5: for a blob the handler found, on a writer whose [Content-Type] is
    not set yet, the handler sets [Content-Type] to the blob's mime type
    exactly when that mime type is neither empty nor [unknown]; for the
    mime type [unknown] (and for the empty one) the handler sets no
    [Content-Type].  On a plain GET the response then carries the blob's
    mime type in the first case and the type [http.ServeContent] detects
    in the second. *)
Theorem blobHandler_content_type
  (w : ResponseWriter) (r : Request) (σ : World) (blob : Blob) :
  db σ (chi_URLParam r "blob_id") = inl blob →
  header w !! "Content-Type" = None →
  let set_by_handler := header (blobHeaders blob w) !! "Content-Type" in
  handler w r σ =
    (serve (blobHeaders blob w) r (FileName blob) (clock σ) (File blob), σ)
  ∧ (set_by_handler = Some [MimeType blob]
     ↔ MimeType blob ≠ EmptyString ∧ MimeType blob ≠ "unknown")
  ∧ (MimeType blob = "unknown" ∨ MimeType blob = EmptyString →
     set_by_handler = None)
  ∧ (plainGET r = true → status w = None →
     header (fst (handler w r σ)) !! "Content-Type" =
     Some [if bool_decide (MimeType blob ≠ EmptyString)
              && bool_decide (MimeType blob ≠ "unknown")
           then MimeType blob
           else detectContentType (FileName blob) (File blob)]).
Proof.
  intros Hdb Hct. cbv zeta.
  pose proof (blobHeaders_content_type blob w) as Hh.
  pose proof (mimeKnown_test blob) as Hk. unfold mimeKnown in Hk.
  rewrite Hct in Hh. cbn [default app] in Hh.
  split; [by apply blobHandler_found|].
  split; [|split].
  - rewrite Hh. destruct (_ && _).
    + split; [intros _; by apply Hk | done].
    + split; [done|]. intros Hm. apply Hk in Hm. done.
  - intros Hm. rewrite Hh.
    destruct (_ && _); [|done].
    destruct Hk as [Hk _]. destruct (Hk eq_refl) as [E1 E2].
    by destruct Hm.
  - intros Hplain Hst. rewrite (blobHandler_found _ _ _ _ Hdb). cbn [fst].
    destruct (blobHeaders_unwritten blob w) as [Hs _].
    destruct (ServeContent_plain (blobHeaders blob w) r (FileName blob)
                (clock σ) (File blob) Hplain) as (_ & _ & _ & Ht);
      [congruence|].
    rewrite Ht, Hh. by destruct (_ && _).
Qed.

(** C6, amended: for a blob the handler found, the handler sets the header
    [Content-Disposition] to [attachment;filename=] followed by the blob's
    stored file name, whatever the mime type and whatever the request; and
    on a GET without [Range] and precondition headers, answered on a writer
    nothing was written to, the response has that header, status 200 and a
    body equal to the stored bytes. *)
Theorem blobHandler_disposition_and_body
  (w : ResponseWriter) (r : Request) (σ : World) (blob : Blob) :
  db σ (chi_URLParam r "blob_id") = inl blob →
  header w !! "Content-Disposition" = None →
  let disposition := "attachment;filename=" +:+ FileName blob in
  handler w r σ =
    (serve (blobHeaders blob w) r (FileName blob) (clock σ) (File blob), σ)
  ∧ header (blobHeaders blob w) !! "Content-Disposition"
    = Some [disposition]
  ∧ (plainGET r = true → status w = None → body w = EmptyString →
     let resp := fst (handler w r σ) in
     header resp !! "Content-Disposition" = Some [disposition]
     ∧ status resp = Some 200%Z
     ∧ body resp = File blob).
Proof.
  intros Hdb Hcd. cbv zeta.
  pose proof (blobHeaders_content_disposition blob w) as Hh.
  rewrite Hcd in Hh. cbn [default app] in Hh.
  split; [by apply blobHandler_found|]. split; [exact Hh|].
  intros Hplain Hst Hbody. rewrite (blobHandler_found _ _ _ _ Hdb).
  cbn [fst]. destruct (blobHeaders_unwritten blob w) as [Hs Hb].
  destruct (ServeContent_plain (blobHeaders blob w) r (FileName blob)
              (clock σ) (File blob) Hplain) as (Hst' & Hb' & Hd' & _);
    [congruence|].
  rewrite Hd', Hh, Hst', Hb', Hb, Hbody. done.
Qed.

(** C7: when the lookup of the blob key fails, with whatever error, the
    handler answers on a fresh writer with status 400 and a body that is
    the JSON object with the two string members [err] and [message] (both
    the text of the lookup error) followed by a newline; no
    [Content-Disposition] is set and no blob content is written. *)
Theorem blobHandler_lookup_failure
  (w : ResponseWriter) (r : Request) (σ : World) (err : error) :
  db σ (chi_URLParam r "blob_id") = inr err →
  status w = None → body w = EmptyString →
  let resp := fst (handler w r σ) in
  status resp = Some 400%Z
  ∧ body resp =
    json_text quote
      (JObject [("err", JString (Error err));
                ("message", JString (Error err))]) +:+ nl
  ∧ body resp =
    "{" +:+ quote "err" +:+ ":" +:+ quote (Error err) +:+ ","
    +:+ quote "message" +:+ ":" +:+ quote (Error err) +:+ "}" +:+ nl
  ∧ header resp !! "Content-Disposition"
    = header w !! "Content-Disposition".
Proof.
  intros Hdb Hst Hbody. cbv zeta.
  rewrite (blobHandler_failed _ _ _ _ Hdb), JSON_two_fields. cbn [fst].
  destruct (http_Error_response w
              ("{" +:+ quote "err" +:+ ":" +:+ quote (Err_ (Err err []))
               +:+ "," +:+ quote "message" +:+ ":"
               +:+ quote (Message (Err err [])) +:+ "}")
              StatusBadRequest) as (Hb & Hs & Hh).
  rewrite Hb, Hs, Hst, Hbody, Hh by done.
  cbn [json_text Err Err_ Message default].
  split; [done|]. split; [|split; [|done]].
  - change (EmptyString +:+ ?x) with x. by rewrite !append_assoc.
  - change (EmptyString +:+ ?x) with x. by rewrite !append_assoc.
Qed.

End BlobDelivery.

(** The delivery examples of the specification: blob [a.png] of type
    [image/png] and a blob of type [unknown], each requested by a plain
    GET. *)
Lemma blobHandler_content_type_witness :
  let resp := fst (blobHandler quote0 TimeFormat0 detect0 serveConditional0
                     NewResponseWriter (GET_blob "a.png") world0) in
  header (blobHeaders blob_a_png NewResponseWriter) !! "Content-Type"
  = Some ["image/png"]
  ∧ header resp !! "Content-Type" = Some ["image/png"]
  ∧ header (blobHeaders blob_unknown NewResponseWriter) !! "Content-Type"
    = None.
Proof.
  destruct (blobHandler_content_type quote0 TimeFormat0 detect0
              serveConditional0 NewResponseWriter (GET_blob "a.png") world0
              blob_a_png) as (_ & Hset & _ & Hresp).
  - vm_compute. reflexivity.
  - reflexivity.
  - destruct (blobHandler_content_type quote0 TimeFormat0 detect0
                serveConditional0 NewResponseWriter (GET_blob "notes") world0
                blob_unknown) as (_ & _ & Hunknown & _).
    + vm_compute. reflexivity.
    + reflexivity.
    + split; [|split].
      * apply Hset. split; discriminate.
      * apply Hresp; reflexivity.
      * apply Hunknown. left. reflexivity.
Defined.

(** C6, as the specification states it, fails in its second half: the body
    is not the stored bytes for every request.  The blob [a.png], stored
    with the nine bytes [PNG-bytes], requested with [Range: bytes=0-2], is
    answered with status 206 and the three bytes [PNG]; the
    [Content-Disposition] header is there. *)
Lemma blobHandler_range_request_partial_body :
  db world0 (chi_URLParam (GET_blob_range "a.png" "bytes=0-2") "blob_id")
  = inl blob_a_png
  ∧ status (fst (blobHandler quote0 TimeFormat0 detect0 serveConditional0
                   NewResponseWriter (GET_blob_range "a.png" "bytes=0-2")
                   world0)) = Some 206%Z
  ∧ body (fst (blobHandler quote0 TimeFormat0 detect0 serveConditional0
                 NewResponseWriter (GET_blob_range "a.png" "bytes=0-2")
                 world0)) = "PNG"
  ∧ body (fst (blobHandler quote0 TimeFormat0 detect0 serveConditional0
                 NewResponseWriter (GET_blob_range "a.png" "bytes=0-2")
                 world0)) ≠ File blob_a_png
  ∧ header (fst (blobHandler quote0 TimeFormat0 detect0 serveConditional0
                   NewResponseWriter (GET_blob_range "a.png" "bytes=0-2")
                   world0)) !! "Content-Disposition"
    = Some ["attachment;filename=a.png"]
  ∧ header (fst (blobHandler quote0 TimeFormat0 detect0 serveConditional0
                   NewResponseWriter (GET_blob_range "a.png" "bytes=0-2")
                   world0)) !! "Content-Range"
    = Some ["bytes 0-2/9"].
Proof.
  split; [reflexivity|]. split; [vm_compute; reflexivity|].
  split; [vm_compute; reflexivity|].
  split; [vm_compute; discriminate|].
  split; vm_compute; reflexivity.
Qed.

Lemma blobHandler_disposition_and_body_witness :
  let resp := fst (blobHandler quote0 TimeFormat0 detect0 serveConditional0
                     NewResponseWriter (GET_blob "a.png") world0) in
  header resp !! "Content-Disposition" = Some ["attachment;filename=a.png"]
  ∧ status resp = Some 200%Z
  ∧ body resp = "PNG-bytes".
Proof.
  destruct (blobHandler_disposition_and_body quote0 TimeFormat0 detect0
              serveConditional0 NewResponseWriter (GET_blob "a.png") world0
              blob_a_png) as (_ & _ & Hresp).
  - vm_compute. reflexivity.
  - reflexivity.
  - apply Hresp; reflexivity.
Defined.

(** The missing key of the specification. *)
Lemma blobHandler_lookup_failure_witness :
  let resp := fst (blobHandler quote0 TimeFormat0 detect0 serveConditional0
                     NewResponseWriter (GET_blob "nonexistent.png") world0) in
  status resp = Some 400%Z
  ∧ body resp =
    "{" +:+ dq +:+ "err" +:+ dq +:+ ":"
    +:+ dq +:+ "sql: no rows in result set" +:+ dq +:+ ","
    +:+ dq +:+ "message" +:+ dq +:+ ":"
    +:+ dq +:+ "sql: no rows in result set" +:+ dq +:+ "}" +:+ nl.
Proof.
  destruct (blobHandler_lookup_failure quote0 TimeFormat0 detect0
              serveConditional0 NewResponseWriter
              (GET_blob "nonexistent.png") world0 sql_ErrNoRows)
    as (Hst & _ & Hbody & _).
  - vm_compute. reflexivity.
  - reflexivity.
  - reflexivity.
  - split; [exact Hst|]. rewrite Hbody. vm_compute. reflexivity.
Defined.

(** ** The envelope and its inner error *)

(** C8, as the specification states it, fails: [Unwrap] does not give back
    the error that was wrapped.  For the error [Migrate] returns around
    [sql.ErrNoRows], it gives a new [errorString] with the same text, at a
    fresh address, without the wrapped chain. *)
Lemma Unwrap_is_not_the_wrapped_error :
  fst (Unwrap (Err migrateError []) world0)
  = errorString 4%positive "migrate: sql: no rows in result set"
  ∧ fst (Unwrap (Err migrateError []) world0) ≠ migrateError.
Proof. split; [reflexivity | discriminate]. Qed.

(** C8, amended: for every error [err] wrapped by [Err], with or without a
    message, [Unwrap] yields a newly allocated [errorString] whose text is
    the text of [err] (the wrapped value itself is not kept), and the wire
    payload is the object with the two string members [err], the text of
    [err], and [message], the given message or else the text of [err]. *)
Theorem Unwrap_yields_error_text
  (quote : string -> string) (err : error) (message : list string)
  (σ : World) :
  fst (Unwrap (Err err message) σ) = errorString (nextAddr σ) (Error err)
  ∧ Error (fst (Unwrap (Err err message) σ)) = Error err
  ∧ fst (JSON quote (Err err message) σ) =
    json_text quote
      (JObject [("err", JString (Error err));
                ("message", JString (default (Error err) (head message)))])
  ∧ fst (JSON quote (Err err message) σ) =
    "{" +:+ quote "err" +:+ ":" +:+ quote (Error err) +:+ ","
    +:+ quote "message" +:+ ":"
    +:+ quote (default (Error err) (head message)) +:+ "}".
Proof.
  destruct (Err_fields err message) as [He Hm].
  rewrite JSON_two_fields. cbn [fst]. rewrite He, Hm.
  unfold Unwrap, errors_New. cbn [fst Error]. rewrite He.
  split; [done|]. split; [done|]. split; [|done].
  cbn [json_text]. by rewrite !append_assoc.
Qed.

(** ** withError *)

(** C9, as the specification states it, fails: a handler that returns the
    zero values, a nil result and a nil error with status code 0, gets no
    envelope written.  [withError] prints [no response], and [http.Error]
    panics in [WriteHeader] on the code 0 before anything is sent: no
    status, an empty body. *)
Lemma withError_zero_code_sends_nothing :
  ∃ w',
    withError quote0 zeroCodeHandler NewResponseWriter (GET_blob "a.png")
      world0
    = (PanicsWith w' "invalid WriteHeader code 0",
       printed "no response" (allocated world0))
    ∧ status w' = None ∧ body w' = EmptyString.
Proof. eexists. split; [reflexivity|]. split; reflexivity. Qed.

(** C9, amended: when the handler returns a nil result and a nil error,
    and either it sent a status itself or the status code it returns is one
    [net/http] accepts (100 to 999), the status in effect being one that
    allows a body, then [withError] makes the error [no response], prints
    it, and answers: it writes the envelope whose [err] and [message] are
    both [no response] to the response (after whatever the handler wrote
    itself), with the handler's status code when the handler sent none; the
    body is not left empty. *)
Theorem withError_no_response
  (quote : string -> string) (next : HandlerFunc)
  (w w1 : ResponseWriter) (r : Request) (code : Z) (σ σ1 : World) :
  next w r σ = ((w1, (None, code, None)), σ1) →
  answersWithBody w1 code = true →
  ∃ resp,
    fst (withError quote next w r σ) = Answered resp
    ∧ body resp =
      body w1
      +:+ json_text quote
            (JObject [("err", JString "no response");
                      ("message", JString "no response")])
      +:+ nl
    ∧ body resp ≠ EmptyString
    ∧ status resp = Some (default code (status w1))
    ∧ stdout (snd (withError quote next w r σ))
      = (stdout σ1 ++ ["no response"])%list.
Proof.
  intros Hnext Hcode.
  unfold withError, mbind, M_bind. rewrite Hnext.
  unfold errors_New, fmt_Println. rewrite JSON_two_fields.
  unfold mret, M_ret. cbn [fst snd Err Err_ Message Error].
  set (envelope := "{" +:+ quote "err" +:+ ":" +:+ quote "no response"
                   +:+ "," +:+ quote "message" +:+ ":"
                   +:+ quote "no response" +:+ "}").
  rewrite http_Error_checked_answers
    by (by apply answersWithBody_accepted).
  eexists. split; [reflexivity|].
  destruct (http_Error_response w1 envelope code) as (Hb & Hs & _).
  rewrite Hb, Hs.
  assert (Henv : json_text quote
                   (JObject [("err", JString "no response");
                             ("message", JString "no response")])
                 = envelope).
  { subst envelope. cbn [json_text]. by rewrite !append_assoc. }
  rewrite Henv. split; [done|]. split; [|done].
  destruct (body w1); [|discriminate]. subst envelope. discriminate.
Qed.

Lemma withError_no_response_witness :
  ∃ resp,
    fst (withError quote0 silentHandler NewResponseWriter
           (GET_blob "a.png") world0) = Answered resp
    ∧ status resp = Some 200%Z
    ∧ body resp
      = "{" +:+ dq +:+ "err" +:+ dq +:+ ":" +:+ dq +:+ "no response" +:+ dq
        +:+ "," +:+ dq +:+ "message" +:+ dq +:+ ":"
        +:+ dq +:+ "no response" +:+ dq +:+ "}" +:+ nl.
Proof.
  destruct (withError_no_response quote0 silentHandler NewResponseWriter
              NewResponseWriter (GET_blob "a.png") 200%Z world0 world0
              eq_refl eq_refl) as (resp & Hresp & Hbody & _ & Hst & _).
  exists resp. split; [exact Hresp|]. split; [exact Hst|].
  rewrite Hbody. vm_compute. reflexivity.
Defined.

(** ** The servers and the shared context *)

(** C2: the specification asks that cancelling the shared context stops
    both accept loops and makes both run functions return.  The code does
    not do so: [RunServer] and [RunLoadBalancer] receive the context and
    never read it, nor pass it to the listener.  The interrupt function of
    [main] does cancel the context; but whatever the listeners do, each run
    function behaves with the cancelled context exactly as with the live
    one, and where the listener keeps blocking the run function is still
    blocked once the context is cancelled. *)
Theorem servers_ignore_cancellation
  (Env Instance : Type)
  (listen : string → Router → Env → blocking error)
  (start : CaddyfileInput → Env → Instance + error)
  (wait : Instance → Env → blocking unit)
  (ctx : Context) (conn : Store) (lbAddr serverAddr rootPath secret : string)
  (log : Logger) (env : Env) (first : option error) (σ0 σ : World) :
  let ctx' := fst (interrupt first ctx σ0) in
  cancelled ctx' = true
  ∧ RunServer Env listen ctx' conn serverAddr secret log env σ
    = RunServer Env listen ctx conn serverAddr secret log env σ
  ∧ RunLoadBalancer Env Instance start wait ctx' conn lbAddr serverAddr
      rootPath log env σ
    = RunLoadBalancer Env Instance start wait ctx conn lbAddr serverAddr
        rootPath log env σ
  ∧ (listen serverAddr apiRouter env = Blocks →
     fst (RunServer Env listen ctx' conn serverAddr secret log env σ)
     = Blocked)
  ∧ (∀ inst, (∀ c, start c env = inl inst) → wait inst env = Blocks →
     fst (RunLoadBalancer Env Instance start wait ctx' conn lbAddr
            serverAddr rootPath log env σ)
     = Blocked).
Proof.
  cbv zeta. split; [reflexivity|].
  split; [reflexivity|]. split; [reflexivity|]. split.
  - intros Hblock. unfold RunServer, mbind, M_bind, log_Infow.
    by rewrite Hblock.
  - intros inst Hstart Hwait. unfold RunLoadBalancer, mbind, M_bind.
    pose proof (loadBalancerCaddyfile_contents
                  (fst (interrupt first ctx σ0)) conn lbAddr
                  serverAddr rootPath log σ) as Hc.
    destruct (loadBalancerCaddyfile _ _ _ _ _ _ σ) as [o σ'].
    cbn [fst] in Hc. subst o. by rewrite Hstart, Hwait.
Qed.

(** ** More on the adapter and the constructor *)

(** When the handler returns an error, and either it sent a status itself
    or the status code it returns is one [net/http] accepts, the status in
    effect being one that allows a body, [withError] prints the error and
    answers with the envelope whose [err] and [message] are both the text
    of that error, after whatever the handler wrote, with the handler's
    status code when the handler sent none. *)
Theorem withError_handler_error
  (quote : string -> string) (next : HandlerFunc)
  (w w1 : ResponseWriter) (r : Request) (result : option value) (code : Z)
  (err : error) (σ σ1 : World) :
  next w r σ = ((w1, (result, code, Some err)), σ1) →
  answersWithBody w1 code = true →
  ∃ resp,
    fst (withError quote next w r σ) = Answered resp
    ∧ body resp =
      body w1
      +:+ json_text quote
            (JObject [("err", JString (Error err));
                      ("message", JString (Error err))])
      +:+ nl
    ∧ status resp = Some (default code (status w1))
    ∧ stdout (snd (withError quote next w r σ))
      = (stdout σ1 ++ [Error err])%list.
Proof.
  intros Hnext Hcode.
  unfold withError, mbind, M_bind. rewrite Hnext.
  unfold fmt_Println. rewrite JSON_two_fields.
  unfold mret, M_ret. cbn [fst snd Err Err_ Message].
  set (envelope := "{" +:+ quote "err" +:+ ":" +:+ quote (Error err)
                   +:+ "," +:+ quote "message" +:+ ":"
                   +:+ quote (Error err) +:+ "}").
  rewrite http_Error_checked_answers
    by (by apply answersWithBody_accepted).
  eexists. split; [reflexivity|].
  destruct (http_Error_response w1 envelope code) as (Hb & Hs & _).
  rewrite Hb, Hs.
  split; [|done].
  subst envelope. cbn [json_text]. by rewrite !append_assoc.
Qed.

Lemma withError_handler_error_witness :
  ∃ resp,
    fst (withError quote0 notFoundHandler NewResponseWriter
           (GET_blob "zzz") world0) = Answered resp
    ∧ status resp = Some 404%Z
    ∧ body resp =
      "{" +:+ dq +:+ "err" +:+ dq +:+ ":"
      +:+ dq +:+ "sql: no rows in result set" +:+ dq +:+ ","
      +:+ dq +:+ "message" +:+ dq +:+ ":"
      +:+ dq +:+ "sql: no rows in result set" +:+ dq +:+ "}" +:+ nl.
Proof.
  destruct (withError_handler_error quote0 notFoundHandler NewResponseWriter
              NewResponseWriter (GET_blob "zzz") None 404%Z sql_ErrNoRows
              world0 world0 eq_refl eq_refl)
    as (resp & Hresp & Hbody & Hst & _).
  exists resp. split; [exact Hresp|]. split; [exact Hst|].
  rewrite Hbody. vm_compute. reflexivity.
Defined.



(** ** Error chains and the migration helpers *)

Lemma errors_Is_refl (err : error) : errors_Is err err = true.
Proof. destruct err; cbn [errors_Is]; by rewrite bool_decide_eq_true_2. Qed.

Lemma errors_Is_wrap (p : addr) (msg : string) (inner target : error) :
  errors_Is inner target = true →
  errors_Is (wrapError p msg inner) target = true.
Proof. intros H. cbn [errors_Is]. rewrite H. apply orb_true_r. Qed.

(** An error cannot be found in the chain of an older error: the chain of
    an error allocated before [n] holds no value at address [n] or above. *)
Lemma errors_Is_allocatedBefore (n : addr) (err target : error) :
  allocatedBefore n err → (n ≤ addrOf target)%positive →
  errors_Is err target = false.
Proof.
  intros Hbefore Hn. induction err as [p s|p msg inner IH|p typ msg];
    cbn [errors_Is allocatedBefore] in *.
  - rewrite orb_false_r. apply bool_decide_eq_false_2.
    intros <-. cbn [addrOf] in Hn. lia.
  - destruct Hbefore as [Hp Hinner]. rewrite (IH Hinner), orb_false_r.
    apply bool_decide_eq_false_2. intros <-. cbn [addrOf] in Hn. lia.
  - rewrite orb_false_r. apply bool_decide_eq_false_2.
    intros <-. cbn [addrOf] in Hn. lia.
Qed.

Section MigrationProperties.

Variable SourceDriver DatabaseDriver Migrator : Type.
Variable bindata_WithInstance : SourceDriver + error.
Variable sqlite3_WithInstance : Store -> DatabaseDriver + error.
Variable migrate_NewWithInstance :
  SourceDriver -> DatabaseDriver -> Migrator + error.

#[local] Abbreviation newInstance :=
  (newMigrateInstance SourceDriver DatabaseDriver Migrator
     bindata_WithInstance sqlite3_WithInstance migrate_NewWithInstance).
#[local] Abbreviation failure :=
  (instanceFailure SourceDriver DatabaseDriver Migrator
     bindata_WithInstance sqlite3_WithInstance migrate_NewWithInstance).
#[local] Abbreviation built :=
  (instanceBuilt SourceDriver DatabaseDriver Migrator
     bindata_WithInstance sqlite3_WithInstance migrate_NewWithInstance).

Lemma newMigrateInstance_cases (conn : Store) (σ : World) :
  (∃ m, built conn m ∧ newInstance conn σ = (inl m, σ))
  ∨ (∃ stage cause, failure conn stage cause
       ∧ newInstance conn σ
         = (inr (wrapError (nextAddr σ) (stage +:+ Error cause) cause),
            allocated σ)).
Proof.
  unfold newMigrateInstance, instanceBuilt, instanceFailure.
  destruct bindata_WithInstance as [d|cause] eqn:Hb.
  - destruct (sqlite3_WithInstance conn) as [dbDriver|cause] eqn:Hs.
    + destruct (migrate_NewWithInstance d dbDriver) as [m|cause] eqn:Hn.
      * left. exists m. split; [|reflexivity]. by exists d, dbDriver.
      * right. exists "migrate instance: ", cause. split; [|reflexivity].
        right. right. split; [done|]. by exists d, dbDriver.
    + right. exists "db instance: ", cause. split; [|reflexivity].
      right. left. split; [done|]. by exists d.
  - right. exists "bindata instance: ", cause. split; [|reflexivity].
    by left.
Qed.

Variable m_Up : Migrator -> option error.
Variable m_Drop : Migrator -> option error.
Variable m_Version : Migrator -> (N * bool) + error.

#[local] Abbreviation migrate :=
  (Migrate SourceDriver DatabaseDriver Migrator bindata_WithInstance
     sqlite3_WithInstance migrate_NewWithInstance m_Up).
#[local] Abbreviation drop :=
  (Drop SourceDriver DatabaseDriver Migrator bindata_WithInstance
     sqlite3_WithInstance migrate_NewWithInstance m_Drop).
#[local] Abbreviation version :=
  (Version SourceDriver DatabaseDriver Migrator bindata_WithInstance
     sqlite3_WithInstance migrate_NewWithInstance m_Version).

(** The shape shared by [Migrate] and [Drop]: build the migrator, run one
    operation, wrap whatever fails. *)
Lemma migrate_operation_cases (op : Migrator -> option error)
  (conn : Store) (σ : World) :
  let run :=
    Migrate SourceDriver DatabaseDriver Migrator bindata_WithInstance
      sqlite3_WithInstance migrate_NewWithInstance op conn σ in
  (∃ m, built conn m ∧ op m = None ∧ run = (None, σ))
  ∨ (∃ m cause, built conn m ∧ op m = Some cause
       ∧ run = (Some (wrapError (nextAddr σ) ("migrate: " +:+ Error cause)
                        cause), allocated σ))
  ∨ (∃ stage cause, failure conn stage cause
       ∧ run = (Some (wrapError (Pos.succ (nextAddr σ))
                        ("migrate: " +:+ stage +:+ Error cause)
                        (wrapError (nextAddr σ) (stage +:+ Error cause)
                           cause)),
                allocated (allocated σ))).
Proof.
  cbv zeta. unfold Migrate, mbind, M_bind.
  destruct (newMigrateInstance_cases conn σ)
    as [(m & Hm & ->)|(stage & cause & Hf & ->)].
  - destruct (op m) as [cause|] eqn:Hop.
    + right. left. exists m, cause. done.
    + left. exists m. done.
  - right. right. exists stage, cause. done.
Qed.

Lemma built_unique (conn : Store) (m m' : Migrator) :
  built conn m → built conn m' → m = m'.
Proof.
  intros (d & dr & H1 & H2 & H3) (d' & dr' & H1' & H2' & H3'). congruence.
Qed.

Lemma built_not_failure (conn : Store) (m : Migrator) stage cause :
  built conn m → failure conn stage cause → False.
Proof.
  intros (d' & dr' & H1' & H2' & H3')
    [[_ H]|[[_ (d & H1 & H2)]|[_ (d & dr & H1 & H2 & H3)]]]; congruence.
Qed.

Lemma migrate_operation_result (op : Migrator -> option error)
  (conn : Store) (σ : World) :
  let run :=
    Migrate SourceDriver DatabaseDriver Migrator bindata_WithInstance
      sqlite3_WithInstance migrate_NewWithInstance op conn σ in
  (fst run = None ↔ ∃ m, built conn m ∧ op m = None)
  ∧ (fst run = None → snd run = σ)
  ∧ ∀ e, fst run = Some e →
      ∃ stage cause,
        Error e = "migrate: " +:+ stage +:+ Error cause
        ∧ errors_Is e cause = true
        ∧ (nextAddr σ ≤ addrOf e)%positive
        ∧ ((stage = EmptyString ∧ ∃ m, built conn m ∧ op m = Some cause)
           ∨ failure conn stage cause).
Proof.
  destruct (migrate_operation_cases op conn σ)
    as [(m & Hm & Hop & Hrun)|[(m & cause & Hm & Hop & Hrun)
                              |(stage & cause & Hf & Hrun)]];
    cbv zeta in *; rewrite Hrun; cbn [fst snd].
  - split; [|split; [done|done]]. split; [intros _; by exists m | done].
  - split; [|split; [done|]].
    + split; [done|]. intros (m' & Hm' & Hop').
      rewrite (built_unique _ _ _ Hm Hm') in Hop. congruence.
    + intros e [= <-]. exists EmptyString, cause. cbn [Error addrOf].
      split; [done|]. split; [apply errors_Is_wrap, errors_Is_refl|].
      split; [lia|]. left. split; [done|]. by exists m.
  - split; [|split; [done|]].
    + split; [done|]. intros (m' & Hm' & _).
      destruct (built_not_failure _ _ _ _ Hm' Hf).
    + intros e [= <-]. exists stage, cause. cbn [Error addrOf].
      split; [done|].
      split; [apply errors_Is_wrap, errors_Is_wrap, errors_Is_refl|].
      split; [lia|]. by right.
Qed.

(** [Migrate] answers nil exactly when the migrator could be built and [Up]
    answered nil; it then allocates nothing.  In every other case, also
    when [Up] only reports that there is nothing to apply, the answer is a
    newly allocated error whose text is [migrate: ], then the prefix of the
    stage that failed if the migrator could not be built, then the text of
    the library's error; that library error is found in its chain by
    [errors.Is]. *)
Theorem Migrate_result (conn : Store) (σ : World) :
  (fst (migrate conn σ) = None
   ↔ ∃ m, built conn m ∧ m_Up m = None)
  ∧ (fst (migrate conn σ) = None → snd (migrate conn σ) = σ)
  ∧ ∀ e, fst (migrate conn σ) = Some e →
      ∃ stage cause,
        Error e = "migrate: " +:+ stage +:+ Error cause
        ∧ errors_Is e cause = true
        ∧ (nextAddr σ ≤ addrOf e)%positive
        ∧ ((stage = EmptyString ∧ ∃ m, built conn m ∧ m_Up m = Some cause)
           ∨ failure conn stage cause).
Proof. exact (migrate_operation_result m_Up conn σ). Qed.

(** [Drop] reports as [Migrate] does, with [Drop] in the place of [Up]: nil
    exactly when the migrator could be built and [Drop] answered nil, and
    otherwise an error whose text also begins with [migrate: ] and whose
    chain holds the library's error. *)
Theorem Drop_result (conn : Store) (σ : World) :
  (fst (drop conn σ) = None
   ↔ ∃ m, built conn m ∧ m_Drop m = None)
  ∧ ∀ e, fst (drop conn σ) = Some e →
      ∃ stage cause,
        Error e = "migrate: " +:+ stage +:+ Error cause
        ∧ errors_Is e cause = true
        ∧ ((stage = EmptyString ∧ ∃ m, built conn m ∧ m_Drop m = Some cause)
           ∨ failure conn stage cause).
Proof.
  destruct (migrate_operation_result m_Drop conn σ) as (Hnil & _ & Herr).
  split; [exact Hnil|]. intros e He.
  destruct (Herr e He) as (stage & cause & H1 & H2 & _ & H4).
  by exists stage, cause.
Qed.

(** [Version] passes on the version and the dirty flag of the library when
    the migrator could be built and [Version] succeeded; in every other
    case it answers version 0, not dirty, and an error whose text begins
    with [migrate: ] and whose chain holds the library's error. *)
Theorem Version_result (conn : Store) (σ : World) :
  (∀ v d, fst (version conn σ) = (v, d, None)
          ↔ ∃ m, built conn m ∧ m_Version m = inl (v, d))
  ∧ ∀ v d e, fst (version conn σ) = (v, d, Some e) →
      v = 0%N ∧ d = false
      ∧ ∃ stage cause,
          Error e = "migrate: " +:+ stage +:+ Error cause
          ∧ errors_Is e cause = true
          ∧ ((stage = EmptyString
              ∧ ∃ m, built conn m ∧ m_Version m = inr cause)
             ∨ failure conn stage cause).
Proof.
  unfold Version, mbind, M_bind, mret, M_ret, fmt_Errorf_w.
  destruct (newMigrateInstance_cases conn σ)
    as [(m & Hm & ->)|(stage & cause & Hf & ->)].
  - destruct (m_Version m) as [[v0 d0]|cause] eqn:Hv; cbn [fst].
    + split.
      * intros v d. split.
        -- intros [= <- <-]. by exists m.
        -- intros (m' & Hm' & Hv').
           rewrite <- (built_unique _ _ _ Hm Hm') in Hv'. congruence.
      * intros v d e [=].
    + split.
      * intros v d. split; [intros [=]|].
        intros (m' & Hm' & Hv').
        rewrite <- (built_unique _ _ _ Hm Hm') in Hv'. congruence.
      * intros v d e [= <- <- <-]. split; [done|]. split; [done|].
        exists EmptyString, cause. cbn [Error].
        split; [done|]. split; [apply errors_Is_wrap, errors_Is_refl|].
        left. split; [done|]. by exists m.
  - cbn [fst]. split.
    + intros v d. split; [intros [=]|].
      intros (m' & Hm' & _). destruct (built_not_failure _ _ _ _ Hm' Hf).
    + intros v d e [= <- <- <-]. split; [done|]. split; [done|].
      exists stage, cause. cbn [Error]. split; [done|].
      split; [apply errors_Is_wrap, errors_Is_wrap, errors_Is_refl|].
      by right.
Qed.

End MigrationProperties.

Lemma Migrate_result_witness :
  fst (Migrate unit unit unit (inl tt) workingDriver newMigrator upOK
         store0 world0) = None
  ∧ ∃ e stage cause,
      fst (Migrate unit unit unit (inl tt) brokenDriver newMigrator upOK
             store0 world0) = Some e
      ∧ Error e = "migrate: " +:+ stage +:+ Error cause
      ∧ errors_Is e cause = true.
Proof.
  split.
  - apply (Migrate_result unit unit unit (inl tt) workingDriver newMigrator
             upOK store0 world0).
    exists tt. split; [|reflexivity]. by exists tt, tt.
  - destruct (Migrate_result unit unit unit (inl tt) brokenDriver newMigrator
                upOK store0 world0) as (_ & _ & Herr).
    destruct (Herr _ eq_refl) as (stage & cause & H1 & H2 & _).
    eexists _, stage, cause. split; [reflexivity|]. by split.
Defined.

Lemma Version_result_witness :
  fst (Version unit unit unit (inl tt) workingDriver newMigrator versionIs3
         store0 world0) = (3%N, false, None).
Proof.
  apply (Version_result unit unit unit (inl tt) workingDriver newMigrator
           versionIs3 store0 world0).
  exists tt. split; [|reflexivity]. by exists tt, tt.
Defined.

(** ** The envelope: round trip and identity *)

(** Wrapping what [Unwrap] returns gives the envelope back: [Err] of the
    unwrapped error, with the same optional message, is the envelope that
    was unwrapped; only the text of an error enters an envelope. *)
Theorem Err_Unwrap_round_trip (err : error) (message : list string)
  (σ : World) :
  Err (fst (Unwrap (Err err message) σ)) message = Err err message
  ∧ ∀ err', Error err' = Error err → Err err' message = Err err message.
Proof.
  split.
  - unfold Unwrap, errors_New. cbn [fst].
    destruct message; reflexivity.
  - intros err' H. unfold Err. rewrite H. reflexivity.
Qed.

(** For an error that exists when [Unwrap] is called, the error [Unwrap]
    returns is a new value: [errors.Is] finds neither in the chain of the
    other, and a second [Unwrap] of the same envelope returns yet another
    value with the same text. *)
Theorem Unwrap_is_never_the_original (err : error) (message : list string)
  (σ : World) :
  allocatedBefore (nextAddr σ) err →
  let '(first, σ1) := Unwrap (Err err message) σ in
  let '(second, _) := Unwrap (Err err message) σ1 in
  errors_Is first err = false
  ∧ errors_Is err first = false
  ∧ first ≠ second
  ∧ Error first = Error second.
Proof.
  intros Hbefore. unfold Unwrap, errors_New. cbn [nextAddr allocated].
  destruct (Err_fields err message) as [-> _].
  split; [|split; [|split]].
  - cbn [errors_Is]. rewrite orb_false_r. apply bool_decide_eq_false_2.
    intros H. destruct err as [p s|p msg inner|p typ msg]; try discriminate.
    injection H as Hp. cbn [allocatedBefore] in Hbefore. lia.
  - apply (errors_Is_allocatedBefore (nextAddr σ)); [done|].
    cbn [addrOf]. lia.
  - intros [= H]. lia.
  - reflexivity.
Qed.

Lemma Unwrap_is_never_the_original_witness :
  let '(first, σ1) := Unwrap (Err migrateError []) world0 in
  let '(second, _) := Unwrap (Err migrateError []) σ1 in
  errors_Is first migrateError = false
  ∧ errors_Is migrateError first = false
  ∧ first ≠ second
  ∧ Error first = Error second.
Proof.
  apply (Unwrap_is_never_the_original migrateError [] world0).
  cbn. lia.
Defined.

(** ** The adapter, whatever the handler does *)

(** [http.Error] replaces the content type by plain text and forbids
    sniffing. *)
Lemma http_Error_headers (w : ResponseWriter) (msg : string) (code : Z) :
  header (http_Error w msg code) !! "Content-Type"
  = Some ["text/plain; charset=utf-8"]
  ∧ header (http_Error w msg code) !! "X-Content-Type-Options"
    = Some ["nosniff"].
Proof.
  unfold http_Error, Write, WriteHeader, Header_Set. cbn [status header body].
  destruct (status w); cbn [status header body]; split.
  all: try (rewrite lookup_insert_ne by done; by rewrite lookup_insert_eq).
  all: by rewrite lookup_insert_eq.
Qed.

Section Adapter.

Variable quote : string -> string.

#[local] Abbreviation envelope := (envelopeText quote).

(** Whatever the handler returns, [withError] either answers or panics in
    [WriteHeader], and it panics exactly when the handler sent no status,
    returned a status code outside 100 to 999, and returned an error or
    nothing that encodes.  When it answers, a status has been sent, a
    status the handler sent itself is kept, and, the status allowing a
    body, one newline-terminated payload is appended to what the handler
    wrote.  When it panics, nothing was sent and nothing written.  Either
    way, of the process state only the allocator and the standard output
    (by at most one line) may have changed. *)
Theorem withError_answers_or_panics
  (next : HandlerFunc) (w : ResponseWriter) (r : Request) (σ : World) :
  let w1 := fst (fst (next w r σ)) in
  let result := fst (fst (snd (fst (next w r σ)))) in
  let code := snd (fst (snd (fst (next w r σ)))) in
  let err := snd (snd (fst (next w r σ))) in
  let σ1 := snd (next w r σ) in
  let σ' := snd (withError quote next w r σ) in
  match fst (withError quote next w r σ) with
  | Answered resp =>
      is_Some (status resp)
      ∧ (∀ c, status w1 = Some c → status resp = Some c)
      ∧ (∀ c, status resp = Some c → bodyAllowedForStatus c = true →
         ∃ payload, body resp = body w1 +:+ payload +:+ nl)
  | PanicsWith w' msg =>
      status w1 = None ∧ checkWriteHeaderCode code = false
      ∧ (∀ j, (result, err) ≠ (Some (Encodable j), None))
      ∧ status w' = None ∧ body w' = body w1
      ∧ msg = "invalid WriteHeader code " +:+ pretty code
  end
  ∧ (status w1 = None → checkWriteHeaderCode code = false →
     (∀ j, (result, err) ≠ (Some (Encodable j), None)) →
     ∃ w' msg, fst (withError quote next w r σ) = PanicsWith w' msg)
  ∧ (∃ lines, stdout σ' = (stdout σ1 ++ lines)%list ∧ (length lines ≤ 1)%nat)
  ∧ db σ' = db σ1 ∧ clock σ' = clock σ1 ∧ logged σ' = logged σ1
  ∧ caddyApp σ' = caddyApp σ1
  ∧ (nextAddr σ1 ≤ nextAddr σ')%positive.
Proof.
  cbv zeta. unfold withError, mbind, M_bind.
  destruct (next w r σ) as [[w1 [[result code] err]] σ1]. cbn [fst snd].
  assert (Hresp : ∀ msg σ2 lines,
    (∀ j, (result, err) ≠ (Some (Encodable j), None)) →
    (length lines ≤ 1)%nat →
    stdout σ2 = (stdout σ1 ++ lines)%list → db σ2 = db σ1 →
    clock σ2 = clock σ1 → logged σ2 = logged σ1 →
    caddyApp σ2 = caddyApp σ1 → (nextAddr σ1 ≤ nextAddr σ2)%positive →
    match http_Error_checked w1 msg code with
    | Answered resp =>
        is_Some (status resp)
        ∧ (∀ c, status w1 = Some c → status resp = Some c)
        ∧ (∀ c, status resp = Some c → bodyAllowedForStatus c = true →
           ∃ payload, body resp = body w1 +:+ payload +:+ nl)
    | PanicsWith w' m =>
        status w1 = None ∧ checkWriteHeaderCode code = false
        ∧ (∀ j, (result, err) ≠ (Some (Encodable j), None))
        ∧ status w' = None ∧ body w' = body w1
        ∧ m = "invalid WriteHeader code " +:+ pretty code
    end
    ∧ (status w1 = None → checkWriteHeaderCode code = false →
       (∀ j, (result, err) ≠ (Some (Encodable j), None)) →
       ∃ w' m, http_Error_checked w1 msg code = PanicsWith w' m)
    ∧ (∃ lines, stdout σ2 = (stdout σ1 ++ lines)%list ∧ (length lines ≤ 1)%nat)
    ∧ db σ2 = db σ1 ∧ clock σ2 = clock σ1 ∧ logged σ2 = logged σ1
    ∧ caddyApp σ2 = caddyApp σ1
    ∧ (nextAddr σ1 ≤ nextAddr σ2)%positive).
  { intros msg σ2 lines Hne Hlen Hout Hdb Hclock Hlog Happ Haddr.
    split; [|split; [|split; [by exists lines|done]]].
    - destruct (status w1) as [sent|] eqn:Hst;
        [|destruct (checkWriteHeaderCode code) eqn:Hcode].
      + rewrite http_Error_checked_answers by (rewrite Hst; discriminate).
        destruct (http_Error_response w1 msg code) as (Hb & Hs & _).
        rewrite Hb, Hs, Hst. split; [eexists; reflexivity|].
        split; [by intros c [= ->]|]. intros _ _ _. by exists msg.
      + rewrite http_Error_checked_answers by done.
        destruct (http_Error_response w1 msg code) as (Hb & Hs & _).
        rewrite Hb, Hs, Hst. split; [eexists; reflexivity|].
        split; [by intros c [= ->]|]. intros _ _ _. by exists msg.
      + destruct (http_Error_checked_panics w1 msg code Hst Hcode)
          as (w' & -> & Hs' & Hb').
        done.
    - intros Hst Hcode _.
      destruct (http_Error_checked_panics w1 msg code Hst Hcode)
        as (w' & Hp & _).
      by exists w', ("invalid WriteHeader code " +:+ pretty code). }
  destruct err as [err|].
  - unfold fmt_Println. rewrite JSON_two_fields. unfold mret, M_ret.
    cbn [fst snd]. apply (Hresp _ _ [Error err]); cbn; try done; lia.
  - destruct result as [[j|typ]|].
    + unfold json_Encode, json_Marshal, mbind, M_bind, mret, M_ret.
      cbn [fst snd]. unfold Write, WriteHeader.
      split; [|split].
      * destruct w1 as [h [c|] b]; cbn [status header body].
        all: split; [eexists; reflexivity|].
        all: split; [by intros c' H|].
        all: intros _ _ _; by exists (json_text quote j).
      * intros _ _ Hne. by destruct (Hne j).
      * split; [exists []; split; [by rewrite app_nil_r | cbn; lia]|].
        repeat (split; [done|]). lia.
    + unfold json_Encode, json_Marshal, mbind, M_bind, mret, M_ret.
      unfold fmt_Println. rewrite JSON_two_fields. cbn [fst snd].
      apply (Hresp _ _ ["json: unsupported type: " +:+ typ]);
        cbn; try done; lia.
    + unfold errors_New, fmt_Println. rewrite JSON_two_fields.
      unfold mret, M_ret. cbn [fst snd].
      apply (Hresp _ _ ["no response"]); cbn; try done; lia.
Qed.

(** When [encoding/json] rejects the result, on a writer that has sent
    nothing and with a status code [net/http] accepts and that allows a
    body, [withError] writes nothing of the result: it answers with the
    envelope of the encoder's error, as plain text, with the handler's
    status code, and the error is printed. *)
Theorem withError_encode_failure
  (next : HandlerFunc) (w w1 : ResponseWriter) (r : Request)
  (typ : string) (code : Z) (σ σ1 : World) :
  next w r σ = ((w1, (Some (Unsupported typ), code, None)), σ1) →
  status w1 = None →
  answersWithBody w1 code = true →
  let msg := "json: unsupported type: " +:+ typ in
  ∃ resp,
    fst (withError quote next w r σ) = Answered resp
    ∧ body resp = body w1 +:+ envelope msg msg +:+ nl
    ∧ status resp = Some code
    ∧ header resp !! "Content-Type" = Some ["text/plain; charset=utf-8"]
    ∧ stdout (snd (withError quote next w r σ)) = (stdout σ1 ++ [msg])%list.
Proof.
  intros Hnext Hst Hcode. cbv zeta.
  unfold withError, mbind, M_bind. rewrite Hnext.
  unfold json_Encode, json_Marshal, mbind, M_bind, mret, M_ret, fmt_Println.
  rewrite JSON_two_fields. cbn [fst snd Err Err_ Message Error].
  rewrite http_Error_checked_answers
    by (by apply answersWithBody_accepted).
  eexists. split; [reflexivity|].
  destruct (http_Error_response w1
              (envelope ("json: unsupported type: " +:+ typ)
                 ("json: unsupported type: " +:+ typ)) code)
    as (Hb & Hs & _).
  destruct (http_Error_headers w1
              (envelope ("json: unsupported type: " +:+ typ)
                 ("json: unsupported type: " +:+ typ)) code) as (Ht & _).
  unfold envelopeText in *. rewrite Hb, Hs, Ht, Hst. done.
Qed.

(** [metricsHandler] behind [withError]: on a writer that has sent nothing,
    every request is answered with status 200 and the envelope of
    [ErrNotImplemented], as plain text. *)
Theorem metricsHandler_answers_200_with_error
  (w : ResponseWriter) (r : Request) (σ : World) :
  status w = None →
  ∃ resp,
    fst (withError quote metricsHandler w r σ) = Answered resp
    ∧ status resp = Some 200%Z
    ∧ body resp
      = body w +:+ envelope "not implemented" "not implemented" +:+ nl
    ∧ header resp !! "Content-Type" = Some ["text/plain; charset=utf-8"].
Proof.
  intros Hst.
  unfold withError, metricsHandler, mbind, M_bind, mret, M_ret, fmt_Println.
  rewrite JSON_two_fields.
  cbn [fst snd Err Err_ Message Error ErrNotImplemented].
  rewrite http_Error_checked_answers by done.
  eexists. split; [reflexivity|].
  destruct (http_Error_response w
              (envelope "not implemented" "not implemented") 200%Z)
    as (Hb & Hs & _).
  destruct (http_Error_headers w
              (envelope "not implemented" "not implemented") 200%Z)
    as (Ht & _).
  unfold envelopeText in *. rewrite Hb, Hs, Ht, Hst. done.
Qed.

End Adapter.

Lemma withError_encode_failure_witness :
  ∃ resp,
    fst (withError quote0 channelHandler NewResponseWriter
           (GET_blob "a.png") world0) = Answered resp
    ∧ status resp = Some 500%Z
    ∧ body resp =
      "{" +:+ dq +:+ "err" +:+ dq +:+ ":"
      +:+ dq +:+ "json: unsupported type: chan int" +:+ dq +:+ ","
      +:+ dq +:+ "message" +:+ dq +:+ ":"
      +:+ dq +:+ "json: unsupported type: chan int" +:+ dq +:+ "}" +:+ nl.
Proof.
  destruct (withError_encode_failure quote0 channelHandler NewResponseWriter
              NewResponseWriter (GET_blob "a.png") "chan int" 500%Z
              world0 world0 eq_refl eq_refl eq_refl)
    as (resp & Hresp & Hb & Hs & _).
  exists resp. split; [exact Hresp|]. split; [exact Hs|].
  rewrite Hb. vm_compute. reflexivity.
Defined.

Lemma metricsHandler_answers_200_with_error_witness :
  ∃ resp,
    fst (withError quote0 metricsHandler NewResponseWriter
           (GET_blob "a.png") world0) = Answered resp
    ∧ status resp = Some 200%Z.
Proof.
  destruct (metricsHandler_answers_200_with_error quote0 NewResponseWriter
              (GET_blob "a.png") world0 eq_refl) as (resp & Hresp & Hs & _).
  exists resp. split; [exact Hresp | exact Hs].
Defined.

(** ** Blob delivery: edges *)

Lemma header_WriteHeader (w : ResponseWriter) (code : Z) :
  header (WriteHeader w code) = header w.
Proof. unfold WriteHeader. by destruct (status w). Qed.

Lemma header_Write (w : ResponseWriter) (b : string) :
  header (Write w b) = header w.
Proof. unfold Write. cbn [header]. apply header_WriteHeader. Qed.

Section BlobEdges.

Variable quote : string -> string.
Variable TimeFormat : Time -> string.
Variable detectContentType : string -> string -> string.
Variable serveConditional :
  ResponseWriter -> Request -> string -> Time -> string -> ResponseWriter.

#[local] Abbreviation handler :=
  (blobHandler quote TimeFormat detectContentType serveConditional).
#[local] Abbreviation serve :=
  (http_ServeContent TimeFormat detectContentType serveConditional).

(** [blobHandler] leaves the process as it found it, for every request and
    both outcomes of the lookup: it allocates nothing and prints nothing;
    unlike [withError], it does not print the lookup error it answers
    with. *)
Theorem blobHandler_keeps_process_state
  (w : ResponseWriter) (r : Request) (σ : World) :
  snd (handler w r σ) = σ.
Proof.
  destruct (db σ (chi_URLParam r "blob_id")) as [blob|err] eqn:Hdb.
  - by rewrite (blobHandler_found _ _ _ _ _ _ _ _ Hdb).
  - by rewrite (blobHandler_failed _ _ _ _ _ _ _ _ Hdb).
Qed.

(** A request without the route parameter [blob_id] is answered as the
    request for the blob whose file name is the empty string: by that blob
    if the store has one, by the 400 envelope of the lookup error if not. *)
Theorem blobHandler_without_parameter
  (w : ResponseWriter) (r : Request) (σ : World) :
  URLParams r !! "blob_id" = None →
  handler w r σ =
  match db σ EmptyString with
  | inl blob =>
      (serve (blobHeaders blob w) r (FileName blob) (clock σ) (File blob), σ)
  | inr err =>
      (http_Error w (envelopeText quote (Error err) (Error err))
         StatusBadRequest, σ)
  end.
Proof.
  intros Hparam.
  assert (Hkey : chi_URLParam r "blob_id" = EmptyString).
  { unfold chi_URLParam. by rewrite Hparam. }
  destruct (db σ EmptyString) as [blob|err] eqn:Hdb; rewrite <- Hkey in Hdb.
  - by apply blobHandler_found.
  - rewrite (blobHandler_failed _ _ _ _ _ _ _ _ Hdb), JSON_two_fields.
    reflexivity.
Qed.

(** When the lookup fails, on a writer that has sent no status yet, the
    answer is sent with status 400 as plain text with sniffing forbidden,
    although its body is a JSON object; a content type set on the writer
    before is replaced. *)
Theorem blobHandler_failure_is_plain_text
  (w : ResponseWriter) (r : Request) (σ : World) (err : error) :
  db σ (chi_URLParam r "blob_id") = inr err →
  status w = None →
  let resp := fst (handler w r σ) in
  status resp = Some 400%Z
  ∧ header resp !! "Content-Type" = Some ["text/plain; charset=utf-8"]
  ∧ header resp !! "X-Content-Type-Options" = Some ["nosniff"]
  ∧ body resp = body w +:+ envelopeText quote (Error err) (Error err) +:+ nl.
Proof.
  intros Hdb Hst. cbv zeta.
  rewrite (blobHandler_failed _ _ _ _ _ _ _ _ Hdb), JSON_two_fields.
  cbn [fst Err Err_ Message].
  destruct (http_Error_headers w
              (envelopeText quote (Error err) (Error err))
              StatusBadRequest) as (Ht & Hn).
  destruct (http_Error_response w
              (envelopeText quote (Error err) (Error err))
              StatusBadRequest) as (Hb & Hs & _).
  unfold envelopeText in *. by rewrite Ht, Hn, Hb, Hs, Hst.
Qed.

(** When a content type is already set on the writer, the handler does not
    replace it: a known mime type is added after the values that are there,
    and on a plain GET [http.ServeContent] keeps them all and detects
    nothing, so the first value is still the one set before. *)
Theorem blobHandler_keeps_earlier_content_type
  (w : ResponseWriter) (r : Request) (σ : World) (blob : Blob)
  (earlier : list string) :
  db σ (chi_URLParam r "blob_id") = inl blob →
  header w !! "Content-Type" = Some earlier →
  plainGET r = true → status w = None →
  header (fst (handler w r σ)) !! "Content-Type" =
  Some (if bool_decide (MimeType blob ≠ EmptyString)
           && bool_decide (MimeType blob ≠ "unknown")
        then earlier ++ [MimeType blob]
        else earlier)%list.
Proof.
  intros Hdb Hct Hplain Hst.
  rewrite (blobHandler_found _ _ _ _ _ _ _ _ Hdb). cbn [fst].
  destruct (blobHeaders_unwritten blob w) as [Hs _].
  destruct (ServeContent_plain TimeFormat detectContentType serveConditional
              (blobHeaders blob w) r (FileName blob) (clock σ) (File blob)
              Hplain) as (_ & _ & _ & Ht); [congruence|].
  rewrite Ht, blobHeaders_content_type, Hct. cbn [default].
  by destruct (_ && _).
Qed.

(** On a plain GET for a blob that is found, the response announces the time
    of the request as [Last-Modified], not a time of the blob, the length of
    the stored content in decimal as [Content-Length], and byte ranges. *)
Theorem blobHandler_served_headers
  (w : ResponseWriter) (r : Request) (σ : World) (blob : Blob) :
  db σ (chi_URLParam r "blob_id") = inl blob →
  plainGET r = true → status w = None →
  header w !! "Content-Encoding" = None →
  isZeroTime (clock σ) = false →
  let resp := fst (handler w r σ) in
  header resp !! "Last-Modified" = Some [TimeFormat (clock σ)]
  ∧ header resp !! "Content-Length"
    = Some [pretty (String.length (File blob))]
  ∧ header resp !! "Accept-Ranges" = Some ["bytes"].
Proof.
  intros Hdb Hplain Hst Hce Hzero. cbv zeta.
  rewrite (blobHandler_found _ _ _ _ _ _ _ _ Hdb). cbn [fst].
  unfold http_ServeContent. rewrite Hplain, Hzero.
  set (w0 := blobHeaders blob w).
  assert (Hce0 : header w0 !! "Content-Encoding" = None).
  { subst w0. unfold blobHeaders.
    rewrite header_Add_ne by done.
    destruct (_ && _); [by rewrite header_Add_ne|done]. }
  set (w1 := Header_Set w0 "Last-Modified" (TimeFormat (clock σ))).
  set (w2 := match header w1 !! "Content-Type" with
             | Some _ => w1
             | None => _
             end).
  assert (H2 : header w2 !! "Content-Encoding" = None
               ∧ header w2 !! "Last-Modified" = Some [TimeFormat (clock σ)]).
  { subst w2 w1. destruct (header _ !! "Content-Type"); split.
    - by rewrite header_Set_ne.
    - by rewrite header_Set_eq.
    - by rewrite !header_Set_ne.
    - by rewrite header_Set_ne, header_Set_eq. }
  destruct H2 as [Hce2 Hlm2].
  set (w3 := Header_Set w2 "Accept-Ranges" "bytes").
  assert (Hget : Header_Get w3 "Content-Encoding" = EmptyString).
  { unfold Header_Get. subst w3. by rewrite header_Set_ne, Hce2. }
  rewrite Hget, bool_decide_eq_true_2 by done.
  set (w4 := Header_Set w3 "Content-Length" _).
  assert (H4 : header w4 !! "Last-Modified" = Some [TimeFormat (clock σ)]
               ∧ header w4 !! "Content-Length"
                 = Some [pretty (String.length (File blob))]
               ∧ header w4 !! "Accept-Ranges" = Some ["bytes"]).
  { subst w4 w3. split; [|split].
    - by rewrite !header_Set_ne.
    - by rewrite header_Set_eq.
    - by rewrite header_Set_ne, header_Set_eq. }
  by rewrite header_Write, header_WriteHeader.
Qed.

End BlobEdges.

Lemma blobHandler_without_parameter_witness :
  status (fst (blobHandler quote0 TimeFormat0 detect0 serveConditional0
                 NewResponseWriter GET_no_param world0)) = Some 400%Z.
Proof.
  rewrite (blobHandler_without_parameter quote0 TimeFormat0 detect0
             serveConditional0 NewResponseWriter GET_no_param world0 eq_refl).
  reflexivity.
Defined.

Lemma blobHandler_failure_is_plain_text_witness :
  header (fst (blobHandler quote0 TimeFormat0 detect0 serveConditional0
                 writerWithType (GET_blob "nonexistent.png") world0))
    !! "Content-Type" = Some ["text/plain; charset=utf-8"].
Proof.
  destruct (blobHandler_failure_is_plain_text quote0 TimeFormat0 detect0
              serveConditional0 writerWithType (GET_blob "nonexistent.png")
              world0 sql_ErrNoRows) as (_ & Ht & _).
  - vm_compute. reflexivity.
  - reflexivity.
  - exact Ht.
Defined.

Lemma blobHandler_keeps_earlier_content_type_witness :
  header (fst (blobHandler quote0 TimeFormat0 detect0 serveConditional0
                 writerWithType (GET_blob "a.png") world0))
    !! "Content-Type" = Some ["application/json"; "image/png"].
Proof.
  rewrite (blobHandler_keeps_earlier_content_type quote0 TimeFormat0 detect0
             serveConditional0 writerWithType (GET_blob "a.png") world0
             blob_a_png ["application/json"]).
  - reflexivity.
  - vm_compute. reflexivity.
  - reflexivity.
  - reflexivity.
  - reflexivity.
Defined.

Lemma blobHandler_served_headers_witness :
  let resp := fst (blobHandler quote0 TimeFormat0 detect0 serveConditional0
                     NewResponseWriter (GET_blob "a.png") world0) in
  header resp !! "Last-Modified" = Some ["1600000000"]
  ∧ header resp !! "Content-Length" = Some ["9"]
  ∧ header resp !! "Accept-Ranges" = Some ["bytes"].
Proof.
  cbv zeta.
  destruct (blobHandler_served_headers quote0 TimeFormat0 detect0
              serveConditional0 NewResponseWriter (GET_blob "a.png") world0
              blob_a_png) as (H1 & H2 & H3).
  - vm_compute. reflexivity.
  - reflexivity.
  - reflexivity.
  - reflexivity.
  - reflexivity.
  - rewrite H1, H2, H3. vm_compute. done.
Defined.

(** ** The servers: every way they end *)

(** [RunLoadBalancer] never panics and never fails on its template: the
    configuration always renders, and the call ends as [caddy.Start] and
    [Wait] decide: the error of [caddy.Start] if it fails, nil once [Wait]
    returns, blocked otherwise.  In each case it has logged one line and
    overwritten [caddy.AppName], [caddy.AppVersion] and [caddy.Quiet], and
    changed nothing else.  [RunServer] never returns nil: it returns the
    error of [http.ListenAndServe] or stays blocked. *)
Theorem servers_outcomes
  (Env Instance : Type)
  (listen : string → Router → Env → blocking error)
  (start : CaddyfileInput → Env → Instance + error)
  (wait : Instance → Env → blocking unit)
  (ctx : Context) (conn : Store) (lbAddr serverAddr rootPath secret : string)
  (log : Logger) (env : Env) (σ : World) :
  (∃ caddyfile,
     fst (loadBalancerCaddyfile ctx conn lbAddr serverAddr rootPath log σ)
     = Value caddyfile
     ∧ RunLoadBalancer Env Instance start wait ctx conn lbAddr serverAddr
         rootPath log env σ
       = (match start caddyfile env with
          | inr err => Returned (Some err)
          | inl inst =>
              match wait inst env with
              | Returns _ => Returned None
              | Blocks => Blocked
              end
          end,
          withCaddyApp
            {| AppName := "Doco"; AppVersion := "0.0.1"; Quiet := true |}
            (logging ("start load balancer",
                      [("lb-addr", lbAddr); ("svc-addr", serverAddr);
                       ("web", rootPath)]) σ)))
  ∧ fst (RunLoadBalancer Env Instance start wait ctx conn lbAddr serverAddr
           rootPath log env σ) ≠ Panicked
  ∧ RunServer Env listen ctx conn serverAddr secret log env σ
    = (match listen serverAddr apiRouter env with
       | Returns err => Returned (Some err)
       | Blocks => Blocked
       end,
       logging ("start api", [("svc-addr", serverAddr)]) σ)
  ∧ fst (RunServer Env listen ctx conn serverAddr secret log env σ)
    ≠ Returned None.
Proof.
  pose proof (loadBalancerCaddyfile_contents ctx conn lbAddr serverAddr
                rootPath log σ) as Hc.
  assert (Hσ : snd (loadBalancerCaddyfile ctx conn lbAddr serverAddr rootPath
                      log σ)
               = withCaddyApp
                   {| AppName := "Doco"; AppVersion := "0.0.1";
                      Quiet := true |}
                   (logging ("start load balancer",
                             [("lb-addr", lbAddr); ("svc-addr", serverAddr);
                              ("web", rootPath)]) σ)).
  { unfold loadBalancerCaddyfile. rewrite caddyfileTemplate_parses.
    unfold mbind, M_bind, log_Infow, caddy_setApp.
    match goal with
    | |- context [template_Execute ?t ?b ?d] =>
        pose proof (template_Execute_no_error t b d) as Hne;
        destruct (template_Execute t b d) as [res err]
    end.
    cbn [snd] in Hne. subst err. reflexivity. }
  assert (Hrun : ∀ cf,
    fst (loadBalancerCaddyfile ctx conn lbAddr serverAddr rootPath log σ)
    = Value cf →
    RunLoadBalancer Env Instance start wait ctx conn lbAddr serverAddr
      rootPath log env σ
    = (match start cf env with
       | inr err => Returned (Some err)
       | inl inst =>
           match wait inst env with
           | Returns _ => Returned None
           | Blocks => Blocked
           end
       end,
       snd (loadBalancerCaddyfile ctx conn lbAddr serverAddr rootPath
              log σ))).
  { clear Hc Hσ. intros cf Hcf. unfold RunLoadBalancer, mbind, M_bind.
    destruct (loadBalancerCaddyfile _ _ _ _ _ _ σ) as [o σ'].
    cbn [fst snd] in *. subst o.
    destruct (start cf env) as [inst|err]; [|reflexivity].
    by destruct (wait inst env). }
  split; [|split; [|split]].
  - eexists. split; [exact Hc|]. rewrite (Hrun _ Hc), Hσ. reflexivity.
  - rewrite (Hrun _ Hc). cbn [fst].
    destruct (start _ env) as [inst|err]; [|done].
    by destruct (wait inst env).
  - unfold RunServer, mbind, M_bind, log_Infow.
    by destruct (listen serverAddr apiRouter env).
  - unfold RunServer, mbind, M_bind, log_Infow.
    by destruct (listen serverAddr apiRouter env).
Qed.

(** ** main *)

Section MainProperties.

Variable Env : Type.
Variable Instance : Type.
Variable http_ListenAndServe : string -> Router -> Env -> blocking error.
Variable caddy_Start : CaddyfileInput -> Env -> Instance + error.
Variable instance_Wait : Instance -> Env -> blocking unit.
Variable envconfig_Usage : Config -> list string.

#[local] Abbreviation mainWith group :=
  (main Env Instance http_ListenAndServe caddy_Start instance_Wait group
     envconfig_Usage).
#[local] Abbreviation actorsOf :=
  (actors Env Instance http_ListenAndServe caddy_Start instance_Wait).

Lemma main_cases (group : list Actor -> M (option error))
  (processed : Config + error) (parsed : Flags + Z)
  (connected : Store + error) (env : Env) (σ : World) :
  (boots processed parsed connected
   ∧ ∃ c conn res σ',
       processed = inl c ∧ connected = inl conn
       ∧ group (actorsOf c conn {| cancelled := false |} env)
           (printed "Booting up doco system..."
              (snd (boil_SetDB conn σ))) = (res, σ')
       ∧ mainWith group processed parsed connected env σ
         = (LogFatal (from_option Error "<nil>" res), σ'))
  ∨ (¬ boots processed parsed connected
     ∧ ∀ group',
         mainWith group processed parsed connected env σ
         = mainWith group' processed parsed connected env σ).
Proof.
  unfold main, boots.
  destruct processed as [c|err]; [|right; split; [|done]; by intros (?&?&?&?&_)].
  destruct parsed as [flags|code];
    [|right; split; [|done]; by intros (?&?&?&_&?&_)].
  destruct connected as [conn|err]; cbn [connect];
    [|right; split; [|done]; by intros (?&?&?&_&_&?&_)].
  unfold mbind, M_bind. cbn [boil_SetDB].
  destruct (showConfig flags) eqn:Hshow.
  { right. split; [|done]. intros (?&?&?&_&?&_&?&_). congruence. }
  destruct (dbseed flags) eqn:Hseed.
  { right. split; [|done]. intros (?&?&?&_&?&_&_&?). congruence. }
  left. split; [by exists c, flags, conn|].
  unfold fmt_Println. cbn [snd].
  destruct (group _ _) as [res σ'] eqn:Hg.
  exists c, conn, res, σ'. done.
Qed.

Lemma printLines_state (lines : list string) (σ : World) :
  printLines lines σ
  = (tt, {| db := db σ; clock := clock σ; nextAddr := nextAddr σ;
            stdout := (stdout σ ++ lines)%list; logged := logged σ;
            caddyApp := caddyApp σ |}).
Proof.
  revert σ. induction lines as [|l lines IH]; intros σ.
  - cbn. rewrite app_nil_r. by destruct σ.
  - cbn [printLines]. unfold mbind, M_bind, fmt_Println. rewrite IH.
    unfold printed. cbn [db clock nextAddr stdout logged caddyApp].
    by rewrite <- app_assoc.
Qed.

(** The group of servers is run exactly when the configuration was read,
    the flags were parsed, the database was opened and neither flag is set.
    Then [main] ends in [log.Fatalln] with what the group returned, also when
    that is nil; in every other case the outcome does not depend on the
    group at all. *)
Theorem main_runs_group_only_when_booting
  (group : list Actor -> M (option error))
  (processed : Config + error) (parsed : Flags + Z)
  (connected : Store + error) (env : Env) (σ : World) :
  (boots processed parsed connected
   ∧ ∃ c conn res σ',
       processed = inl c ∧ connected = inl conn
       ∧ group (actorsOf c conn {| cancelled := false |} env)
           (printed "Booting up doco system..."
              (snd (boil_SetDB conn σ))) = (res, σ')
       ∧ mainWith group processed parsed connected env σ
         = (LogFatal (from_option Error "<nil>" res), σ'))
  ∨ (¬ boots processed parsed connected
     ∧ ∀ group',
         mainWith group processed parsed connected env σ
         = mainWith group' processed parsed connected env σ).
Proof. apply main_cases. Qed.

(** The exit status is 0 exactly when the configuration was read and either
    [flag.Parse] left with 0 or the flags were parsed and the servers were
    not booted.  So a database that cannot be opened ends the process with
    status 0, and a group of servers that has stopped ends it with status 1
    even when it stopped without error. *)
Theorem main_exit_status
  (group : list Actor -> M (option error))
  (processed : Config + error) (parsed : Flags + Z)
  (connected : Store + error) (env : Env) (σ : World) :
  exitStatus (fst (mainWith group processed parsed connected env σ)) = 0%Z
  ↔ (∃ c, processed = inl c)
    ∧ (parsed = inr 0%Z
       ∨ ((∃ flags, parsed = inl flags)
          ∧ ¬ boots processed parsed connected)).
Proof.
  unfold main, boots, mret, M_ret.
  destruct processed as [c|err]; cbn [fst exitStatus].
  2: { split; [done|]. by intros [[c Hc] _]. }
  destruct parsed as [flags|code]; cbn [fst exitStatus].
  2: { split.
       - intros ->. split; [by exists c|]. by left.
       - intros [_ [[= ->]|[[flags Hf] _]]]; done. }
  assert (Hok : ∀ P : Prop, ¬ P →
            (0%Z = 0%Z
             ↔ (∃ c0 : Config, inl (B := error) c = inl c0)
               ∧ (inl (B := Z) flags = inr 0%Z
                  ∨ ((∃ f : Flags, inl (B := Z) flags = inl f) ∧ ¬ P)))).
  { intros P HP. split; [|done]. intros _. split; [by exists c|].
    right. split; [by exists flags|done]. }
  destruct connected as [conn|err]; cbn [connect].
  2: { unfold mbind, M_bind, fmt_Println. cbn [fst exitStatus].
       apply Hok. by intros (?&?&?&_&_&?&_). }
  unfold mbind, M_bind. cbn [boil_SetDB].
  destruct (showConfig flags) eqn:Hshow.
  { rewrite printLines_state. cbn [fst exitStatus].
    apply Hok. intros (?&?&?&_&?&_&?&_). congruence. }
  destruct (dbseed flags) eqn:Hseed.
  { unfold fmt_Println, Seed, mret, M_ret. cbn [fst exitStatus].
    apply Hok. intros (?&?&?&_&?&_&_&?). congruence. }
  unfold fmt_Println. destruct (group _ _) as [res σ'].
  cbn [fst exitStatus]. split; [done|].
  intros [_ [?|[_ Hnb]]]; [done|]. destruct Hnb. by exists c, flags, conn.
Qed.

(** With [-config], [main] boots and seeds nothing, whether or not
    [-db-seed] is given too; and it still opens the database first: if that
    fails, the error is printed instead of the configuration, and otherwise
    the usage table is all that is printed. *)
Theorem main_show_config
  (group : list Actor -> M (option error))
  (c : Config) (flags : Flags) (connected : Store + error) (env : Env)
  (σ : World) :
  showConfig flags = true →
  let '(result, σ') := mainWith group (inl c) (inl flags) connected env σ in
  result = MainReturns
  ∧ stdout σ' =
    (stdout σ ++ match connected with
                 | inr err => [Error err]
                 | inl _ => envconfig_Usage c
                 end)%list
  ∧ db σ' = match connected with inr _ => db σ | inl conn => conn end
  ∧ nextAddr σ' = nextAddr σ ∧ logged σ' = logged σ
  ∧ caddyApp σ' = caddyApp σ.
Proof.
  intros Hshow. unfold main.
  destruct connected as [conn|err]; cbn [connect].
  - unfold mbind, M_bind. cbn [boil_SetDB]. rewrite Hshow, printLines_state.
    done.
  - done.
Qed.

(** The two actors [main] registers are wired to one address: whatever the
    configuration, the first listens on [ServerAddr] and the second starts
    the proxy on a configuration whose [proxy] directive forwards [/api/] to
    [localhost] followed by that same [ServerAddr]; both share the one
    interrupt function, which cancels the context. *)
Theorem main_wires_proxy_to_api
  (c : Config) (conn : Store) (ctx : Context) (env : Env) :
  ∃ api proxy,
    actorsOf c conn ctx env = [api; proxy]
    ∧ (∀ σ, fst (execute api σ)
            = match http_ListenAndServe (ServerAddr c) apiRouter env with
              | Returns err => Returned (Some err)
              | Blocks => Blocked
              end)
    ∧ (∀ σ, ∃ caddyfile before after,
         Contents caddyfile
         = before +:+ "proxy /api/ localhost" +:+ ServerAddr c +:+ " {"
           +:+ after
         ∧ fst (execute proxy σ)
           = match caddy_Start caddyfile env with
             | inr err => Returned (Some err)
             | inl inst =>
                 match instance_Wait inst env with
                 | Returns _ => Returned None
                 | Blocks => Blocked
                 end
             end)
    ∧ (∀ err σ, cancelled (fst (interruptWith api err σ)) = true
                ∧ interruptWith proxy err σ = interruptWith api err σ).
Proof.
  eexists _, _. split; [reflexivity|]. cbn [execute interruptWith].
  split; [|split].
  - intros σ. unfold RunServer, mbind, M_bind, log_Infow.
    by destruct (http_ListenAndServe _ _ _).
  - intros σ.
    pose proof (loadBalancerCaddyfile_contents ctx conn (LoadBalancerAddr c)
                  (ServerAddr c) (RootPath c) "lb" σ) as Hc.
    match type of Hc with _ = Value ?cf => exists cf end.
    exists (nl +:+ LoadBalancerAddr c +:+ " {" +:+ nl +:+ tab
            +:+ "tls off" +:+ nl +:+ "    ").
    eexists. split.
    + cbn [Contents]. rewrite !append_assoc. reflexivity.
    + unfold RunLoadBalancer, mbind, M_bind.
      destruct (loadBalancerCaddyfile _ _ _ _ _ _ σ) as [o σ'].
      cbn [fst] in Hc. subst o.
      destruct (caddy_Start _ env) as [inst|err]; [|reflexivity].
      by destruct (instance_Wait inst env).
  - intros err σ. split; reflexivity.
Qed.

End MainProperties.

Lemma main_exit_status_witness :
  exitStatus (fst (main unit unit listenForever startOK waitForever
                     groupReturnsNil usage0 (inl defaultConfig)
                     (inl {| dbseed := false; showConfig := false |})
                     (inr sql_ErrNoRows) tt world0)) = 0%Z
  ∧ exitStatus (fst (main unit unit listenForever startOK waitForever
                       groupReturnsNil usage0 (inl defaultConfig)
                       (inl {| dbseed := false; showConfig := false |})
                       (inl store0) tt world0)) ≠ 0%Z.
Proof.
  split.
  - apply (main_exit_status unit unit listenForever startOK waitForever
             usage0 groupReturnsNil).
    split; [by eexists|]. right. split; [by eexists|].
    intros (c & flags & conn & _ & _ & Hconn & _). discriminate.
  - intros H.
    apply (main_exit_status unit unit listenForever startOK waitForever
             usage0 groupReturnsNil) in H.
    destruct H as [_ [H|[_ H]]]; [discriminate|].
    apply H. by eexists _, _, _.
Defined.

Lemma main_show_config_witness :
  stdout (snd (main unit unit listenForever startOK waitForever
                 groupReturnsNil usage0 (inl defaultConfig)
                 (inl {| dbseed := true; showConfig := true |})
                 (inl store0) tt world0))
  = ["KEY"; "DOCO_SERVERADDR :8081"]
  ∧ stdout (snd (main unit unit listenForever startOK waitForever
                   groupReturnsNil usage0 (inl defaultConfig)
                   (inl {| dbseed := true; showConfig := true |})
                   (inr sql_ErrNoRows) tt world0))
    = ["sql: no rows in result set"].
Proof.
  split.
  - pose proof (main_show_config unit unit listenForever startOK waitForever
                  usage0 groupReturnsNil defaultConfig
                  {| dbseed := true; showConfig := true |} (inl store0) tt
                  world0 eq_refl) as H.
    destruct (main _ _ _ _ _ _ _ _ _ _ _ _) as [res σ'].
    destruct H as (_ & H & _). exact H.
  - pose proof (main_show_config unit unit listenForever startOK waitForever
                  usage0 groupReturnsNil defaultConfig
                  {| dbseed := true; showConfig := true |}
                  (inr sql_ErrNoRows) tt world0 eq_refl) as H.
    destruct (main _ _ _ _ _ _ _ _ _ _ _ _) as [res σ'].
    destruct H as (_ & H & _). exact H.
Defined.

(** ** The configuration text takes its inputs as they are *)

Lemma countNewlines_app (a b : string) :
  countNewlines (a +:+ b) = countNewlines a + countNewlines b.
Proof.
  induction a as [|c a IH]; [reflexivity|].
  change (countNewlines (String c (a +:+ b))
          = countNewlines (String c a) + countNewlines b).
  cbn [countNewlines]. rewrite IH. lia.
Qed.

(** The rendered configuration has the 14 line breaks of the template and
    those of the three inputs: the inputs are written as they are, so a line
    break inside an address or the root path adds a line to the
    configuration, and inputs without line breaks give exactly 14. *)
Theorem caddyfile_line_breaks
  (l u r : string) (ctx : Context) (conn : Store) (log : Logger) (σ : World) :
  ∃ caddyfile,
    fst (loadBalancerCaddyfile ctx conn l u r log σ) = Value caddyfile
    ∧ countNewlines (Contents caddyfile)
      = 14 + countNewlines l + countNewlines u + countNewlines r.
Proof.
  eexists. split; [apply loadBalancerCaddyfile_contents|].
  cbn [Contents]. rewrite !countNewlines_app.
  generalize (countNewlines l) (countNewlines u) (countNewlines r).
  intros a b c. cbv -[Nat.add]. lia.
Qed.
